(** * PortAudio output stage of the SqueezePlay decoder

    A shallow embedding of [src/audio/decode/decode_portaudio.c]: the
    render [callback], the stream-finished notifier [finished] with its
    deferred [finished_handler], and the stream life cycle
    ([decode_portaudio_openstream], [decode_portaudio_start],
    [decode_portaudio_stop], [decode_portaudio_init]).

    Memory is modelled at byte granularity: the output buffer and the
    decode fifo are lists of bytes (integers in [0, 256)), and a
    [sample_t] access reads or writes four consecutive bytes. *)

From Stdlib Require Import ZArith Lia Bool.
From stdpp Require Import base list.

Local Open Scope Z_scope.

(** ** Machine integers *)

(** [size_t] and [unsigned long] on the 32-bit SqueezeOS target. *)
Definition SIZE_BITS : Z := 32.

Definition to_size_t (z : Z) : Z := z mod 2 ^ SIZE_BITS.

Definition to_u32 (z : Z) : Z := z mod 2 ^ 32.

(** Conversion to [int]: reduction modulo 2^32 into the signed range. *)
Definition to_int (z : Z) : Z :=
  let u := z mod 2 ^ 32 in
  if u <? 2 ^ 31 then u else u - 2 ^ 32.

(** [outputParam.sampleFormat = paInt32]: a [sample_t] is four bytes;
    [outputParam.channelCount = 2]: a frame is two samples. *)
Definition sizeof_sample_t : Z := 4.

(** Modelled from the spec: the macro [SAMPLES_TO_BYTES] of
    decode_priv.h, which is not part of the sources at hand.  The spec
    counts requests in stereo frames and buffers in bytes; a frame is
    two samples, so the macro is [2 * n * sizeof(sample_t)], in
    [size_t] arithmetic. *)
Definition SAMPLES_TO_BYTES (n : Z) : Z := to_size_t (2 * n * sizeof_sample_t).

(** Modelled from the spec: the macro [BYTES_TO_SAMPLES] of
    decode_priv.h, the converse [n / (2 * sizeof(sample_t))], rounding
    down. *)
Definition BYTES_TO_SAMPLES (n : Z) : Z := n / (2 * sizeof_sample_t).

(** ** Samples in byte memory *)

(** The byte at offset [off]; reading outside the list yields 0 (the C
    code would read past the object). *)
Definition byte_at (mem : list Z) (off : Z) : Z :=
  default 0 (mem !! Z.to_nat off).

(** [*(sample_t * )(mem + off)]: a little-endian two's complement load. *)
Definition load_sample (mem : list Z) (off : Z) : Z :=
  to_int (byte_at mem off
          + 2 ^ 8 * byte_at mem (off + 1)
          + 2 ^ 16 * byte_at mem (off + 2)
          + 2 ^ 24 * byte_at mem (off + 3)).

(** The four bytes of a [sample_t] value, least significant first. *)
Definition encode_sample (v : Z) : list Z :=
  [ v mod 256; (v / 2 ^ 8) mod 256; (v / 2 ^ 16) mod 256; (v / 2 ^ 24) mod 256 ].

(** Writing a block of bytes at [off]; stdpp's [list_inserts] leaves
    the list alone outside its range, where the C code would write past
    the object. *)
Definition write_bytes (mem : list Z) (off : Z) (bytes : list Z) : list Z :=
  list_inserts (Z.to_nat off) bytes mem.

(** [*(sample_t * )(mem + off) = v] *)
Definition store_sample (mem : list Z) (off : Z) (v : Z) : list Z :=
  write_bytes mem off (encode_sample v).

(** [memset(mem + off, 0, n)] *)
Definition memset0 (mem : list Z) (off n : Z) : list Z :=
  write_bytes mem off (replicate (Z.to_nat n) 0).

(** ** The decode fifo *)

(** Modelled from the spec: [struct fifo] of audio/fifo.h, which is
    not part of the sources at hand.  The spec gives the ring buffer a
    capacity in bytes, a read index and a write index. *)
Record fifo := mk_fifo {
  rptr : Z;
  wptr : Z;
  size : Z
}.

(** Modelled from the spec: [fifo_bytes_used] of audio/fifo.h, the
    [bytes_used()] of the ring buffer contract; the distance from the
    read index to the write index, modulo the capacity. *)
Definition fifo_bytes_used (f : fifo) : Z := (wptr f - rptr f) mod size f.

(** Modelled from the spec: [fifo_bytes_until_rptr_wrap] of
    audio/fifo.h, the [bytes_until_wrap_from_read()] of the contract. *)
Definition fifo_bytes_until_rptr_wrap (f : fifo) : Z := size f - rptr f.

(** Modelled from the spec: [fifo_rptr_incby] of audio/fifo.h, the
    [advance_read(n)] of the contract; index arithmetic is modulo the
    capacity. *)
Definition fifo_rptr_incby (f : fifo) (incby : Z) : fifo :=
  mk_fifo ((rptr f + incby) mod size f) (wptr f) (size f).

(** Modelled from the spec: [fifo_init] of audio/fifo.h; an empty
    ring buffer of the given capacity. *)
Definition fifo_init (sz : Z) : fifo := mk_fifo 0 0 sz.

(** ** Shared audio state: [struct decode_audio] *)

(** Modelled from the spec: the running flag of [decode_audio->state];
    decode.h, which defines the bit, is not part of the sources at
    hand. *)
Definition DECODE_STATE_RUNNING : Z := 1.

(** Modelled from the spec: the underrun flag of [decode_audio->state],
    a bit of its own. *)
Definition DECODE_STATE_UNDERRUN : Z := 2.

(** Modelled from the spec: [struct decode_audio] of decode_priv.h,
    which is not part of the sources at hand, with the fields this
    file touches: the spec's running and underrun flags, gains,
    pending silence, skip-ahead counter, elapsed-sample counter, track
    rate and target rate.  The field [fifo] is called [fifo_of] here;
    the counters are kept as mathematical integers. *)
Record decode_audio := mk_audio {
  state : Z;
  fifo_of : fifo;
  lgain : Z;
  rgain : Z;
  add_silence_ms : Z;
  skip_ahead_bytes : Z;
  elapsed_samples : Z;
  track_sample_rate : Z;
  set_sample_rate : Z;
  max_rate : Z
}.

Definition with_state (v : Z) (a : decode_audio) : decode_audio :=
  mk_audio v (fifo_of a) (lgain a) (rgain a) (add_silence_ms a)
    (skip_ahead_bytes a) (elapsed_samples a) (track_sample_rate a)
    (set_sample_rate a) (max_rate a).

Definition with_fifo (f : fifo) (a : decode_audio) : decode_audio :=
  mk_audio (state a) f (lgain a) (rgain a) (add_silence_ms a)
    (skip_ahead_bytes a) (elapsed_samples a) (track_sample_rate a)
    (set_sample_rate a) (max_rate a).

Definition with_skip_ahead_bytes (v : Z) (a : decode_audio) : decode_audio :=
  mk_audio (state a) (fifo_of a) (lgain a) (rgain a) (add_silence_ms a)
    v (elapsed_samples a) (track_sample_rate a)
    (set_sample_rate a) (max_rate a).

Definition with_elapsed_samples (v : Z) (a : decode_audio) : decode_audio :=
  mk_audio (state a) (fifo_of a) (lgain a) (rgain a) (add_silence_ms a)
    (skip_ahead_bytes a) v (track_sample_rate a)
    (set_sample_rate a) (max_rate a).

Definition with_set_sample_rate (v : Z) (a : decode_audio) : decode_audio :=
  mk_audio (state a) (fifo_of a) (lgain a) (rgain a) (add_silence_ms a)
    (skip_ahead_bytes a) (elapsed_samples a) (track_sample_rate a)
    v (max_rate a).

Definition with_max_rate (v : Z) (a : decode_audio) : decode_audio :=
  mk_audio (state a) (fifo_of a) (lgain a) (rgain a) (add_silence_ms a)
    (skip_ahead_bytes a) (elapsed_samples a) (track_sample_rate a)
    (set_sample_rate a) v.

(** [state & flag] as a truth value. *)
Definition flag_set (st flag : Z) : bool := negb (Z.land st flag =? 0).

(** [fifo_rptr_incby(&decode_audio->fifo, n)] *)
Definition audio_rptr_incby (n : Z) (a : decode_audio) : decode_audio :=
  with_fifo (fifo_rptr_incby (fifo_of a) n) a.

(** ** Observable effects *)

(** What the code does to the lock, the effects mixer, the PortAudio
    stream and the debug log, in program order.  [EvTakeRate r] is the
    read of [set_sample_rate], with value [r], and its reset to 0 in
    [decode_portaudio_openstream]. *)
Inductive event :=
| EvLock
| EvUnlock
| EvTakeRate (sample_rate : Z)
| EvMix (len : Z)
| EvCloseStream
| EvOpenStream (sample_rate : Z)
| EvSetStreamFinishedCallback
| EvStartStream
| EvWarn
| EvDropped.

Definition is_stream_event (e : event) : bool :=
  match e with
  | EvCloseStream | EvOpenStream _ | EvSetStreamFinishedCallback
  | EvStartStream => true
  | _ => false
  end.

Definition no_stream_events (t : list event) : bool :=
  forallb (fun e => negb (is_stream_event e)) t.

(** How many times the lock is held at the end of a trace that starts
    with the lock free. *)
Fixpoint lock_depth (t : list event) : Z :=
  match t with
  | [] => 0
  | EvLock :: t => lock_depth t + 1
  | EvUnlock :: t => lock_depth t - 1
  | _ :: t => lock_depth t
  end.

Inductive PaStreamCallbackResult := paContinue | paComplete | paAbort.

(** ** Outcomes of a run *)

(** A run either completes, divides by zero (undefined behaviour in C),
    or exhausts the fuel of a loop. *)
Inductive outcome (A : Type) :=
| Done (a : A)
| DivisionByZero
| OutOfFuel.
Arguments Done {A} a.
Arguments DivisionByZero {A}.
Arguments OutOfFuel {A}.

Definition obind {A B} (m : outcome A) (k : A -> outcome B) : outcome B :=
  match m with
  | Done a => k a
  | DivisionByZero => DivisionByZero
  | OutOfFuel => OutOfFuel
  end.

(** ** The render callback *)

Record callback_result := mk_result {
  res_audio : decode_audio;
  res_output : list Z;
  res_trace : list event;
  res_return : PaStreamCallbackResult
}.

(** Lines 82-87: the skip is only taken if it will not cause an
    underrun. *)
Definition skip_amount (bytes_used len skip_ahead : Z) : Z :=
  if (bytes_used >=? len) && (skip_ahead >? 0) then
    let skip_bytes := bytes_used - len in
    if skip_bytes >? skip_ahead then skip_ahead else skip_bytes
  else 0.

(** Lines 109-126: advance the read pointer by [skip_bytes], in two
    steps when the skip crosses the end of the fifo. *)
Definition skip_ahead (skip_bytes : Z) (a : decode_audio) : decode_audio :=
  if skip_bytes =? 0 then a
  else
    let wrap := fifo_bytes_until_rptr_wrap (fifo_of a) in
    let '(skip_bytes, a) :=
      if wrap <? skip_bytes then
        (skip_bytes - wrap,
         with_elapsed_samples (elapsed_samples a + BYTES_TO_SAMPLES wrap)
           (with_skip_ahead_bytes (skip_ahead_bytes a - wrap)
              (audio_rptr_incby wrap a)))
      else (skip_bytes, a) in
    with_elapsed_samples (elapsed_samples a + BYTES_TO_SAMPLES skip_bytes)
      (with_skip_ahead_bytes (skip_ahead_bytes a - skip_bytes)
         (audio_rptr_incby skip_bytes a)).

(** Lines 66-73: the silence inserted by this call, in bytes, and what
    the local [add_silence_ms] holds afterwards. *)
Definition silence_bytes (add_silence_ms stream_sample_rate len : Z) : Z :=
  let add_bytes :=
    SAMPLES_TO_BYTES
      (to_u32 (to_u32 (to_u32 add_silence_ms * stream_sample_rate) / 1000)) in
  if add_bytes >? len then len else add_bytes.

Definition silence_remaining (add_silence_ms add_bytes stream_sample_rate : Z) : Z :=
  let ms :=
    to_int (add_silence_ms
            - to_size_t (BYTES_TO_SAMPLES add_bytes * 1000) / stream_sample_rate) in
  if ms <? 2 then 0 else ms.

Section Render.

(** The fixed-point multiply of audio/fixed_math.h, the effects mixer
    [decode_sample_mix] and [decode_check_start_point] are defined
    outside this file; the callback is verified for any of them.  The
    spec describes the start-point check as a predicate of the shared
    audio state. *)
Variable fixed_mul : Z -> Z -> Z.
Variable decode_sample_mix : list Z -> Z -> list Z.
Variable decode_check_start_point : decode_audio -> bool.

(** Lines 143-146: the inner loop, one stereo frame per round. *)
Fixpoint copy_frames (samples_write : nat) (lg rg : Z)
    (decode_fifo_buf : list Z) (decode_ptr : Z)
    (out : list Z) (output_ptr : Z) : list Z :=
  match samples_write with
  | O => out
  | S n =>
      let out :=
        store_sample out output_ptr
          (fixed_mul lg (load_sample decode_fifo_buf decode_ptr)) in
      let out :=
        store_sample out (output_ptr + sizeof_sample_t)
          (fixed_mul rg (load_sample decode_fifo_buf (decode_ptr + sizeof_sample_t))) in
      copy_frames n lg rg decode_fifo_buf (decode_ptr + 2 * sizeof_sample_t)
        out (output_ptr + 2 * sizeof_sample_t)
  end.

(** Lines 128-153: the outer loop, one contiguous segment of the fifo
    per round. *)
Fixpoint copy_loop (fuel : nat) (decode_fifo_buf : list Z)
    (a : decode_audio) (out : list Z) (outputArray bytes_used : Z)
    : outcome (decode_audio * list Z) :=
  if bytes_used =? 0 then Done (a, out)
  else
    match fuel with
    | O => OutOfFuel
    | S fuel =>
        let wrap := fifo_bytes_until_rptr_wrap (fifo_of a) in
        let bytes_write := if wrap <? bytes_used then wrap else bytes_used in
        let samples_write := BYTES_TO_SAMPLES bytes_write in
        let out :=
          copy_frames (Z.to_nat samples_write) (lgain a) (rgain a)
            decode_fifo_buf (rptr (fifo_of a)) out outputArray in
        let a := audio_rptr_incby bytes_write a in
        let a :=
          with_elapsed_samples
            (elapsed_samples a + BYTES_TO_SAMPLES bytes_write) a in
        copy_loop fuel decode_fifo_buf a out
          (outputArray + bytes_write) (bytes_used - bytes_write)
    end.

(** The eight output bytes of one stereo frame read at offset
    [off] of the fifo memory: left sample times left gain, right
    sample times right gain. *)
Definition gain_frame (lg rg : Z) (decode_fifo_buf : list Z) (off : Z) : list Z :=
  encode_sample (fixed_mul lg (load_sample decode_fifo_buf off))
  ++ encode_sample
       (fixed_mul rg (load_sample decode_fifo_buf (off + sizeof_sample_t))).

(** [n] consecutive gain-scaled frames starting at [off]. *)
Fixpoint gain_frames (n : nat) (lg rg : Z) (decode_fifo_buf : list Z)
    (off : Z) : list Z :=
  match n with
  | O => []
  | S n =>
      gain_frame lg rg decode_fifo_buf off
      ++ gain_frames n lg rg decode_fifo_buf (off + 2 * sizeof_sample_t)
  end.

(** [n] gain-scaled frames read around the ring of capacity [sz],
    starting at [off]. *)
Fixpoint ring_frames (n : nat) (lg rg : Z) (decode_fifo_buf : list Z)
    (sz off : Z) : list Z :=
  match n with
  | O => []
  | S n =>
      gain_frame lg rg decode_fifo_buf off
      ++ ring_frames n lg rg decode_fifo_buf sz
           ((off + 2 * sizeof_sample_t) mod sz)
  end.

(** What the copy loop leaves in the output when it copies [used]
    bytes to offset [o] after a skip of [skip] bytes: one segment from
    the read index up to the wrap, and one from index 0. *)
Definition copied_segments (decode_fifo_buf out : list Z) (a : decode_audio)
    (o used skip : Z) : list Z :=
  let r := (rptr (fifo_of a) + skip) mod size (fifo_of a) in
  let wrap := size (fifo_of a) - r in
  let n1 := if wrap <? used then wrap else used in
  write_bytes
    (write_bytes out o
       (gain_frames (Z.to_nat (BYTES_TO_SAMPLES n1)) (lgain a) (rgain a)
          decode_fifo_buf r))
    (o + n1)
    (gain_frames (Z.to_nat (BYTES_TO_SAMPLES (used - n1))) (lgain a) (rgain a)
       decode_fifo_buf 0).

(** Label [mixin_effects]: lines 163-167. *)
Definition mixin_effects (framesPerBuffer : Z) (a : decode_audio)
    (out : list Z) (trace : list event) : callback_result :=
  mk_result a
    (decode_sample_mix out (SAMPLES_TO_BYTES framesPerBuffer))
    (trace ++ [EvMix (SAMPLES_TO_BYTES framesPerBuffer)])
    paContinue.

(** Label [unlock_mixin_effects]: lines 160-161, falling through. *)
Definition unlock_mixin_effects (framesPerBuffer : Z) (a : decode_audio)
    (out : list Z) (trace : list event) : callback_result :=
  mixin_effects framesPerBuffer a out (trace ++ [EvUnlock]).

(** Lines 79-158: the part of the callback that plays from the fifo.
    [outputArray] is the offset of the output cursor in the buffer. *)
Definition callback_play (stream_sample_rate : Z) (decode_fifo_buf : list Z)
    (framesPerBuffer : Z) (a : decode_audio) (out : list Z)
    (outputArray len : Z) (trace : list event) : outcome callback_result :=
  let bytes_used := fifo_bytes_used (fifo_of a) in
  let skip_bytes := skip_amount bytes_used len (skip_ahead_bytes a) in
  let bytes_used := if bytes_used >? len then len else bytes_used in
  if bytes_used =? 0 then
    Done (unlock_mixin_effects framesPerBuffer
            (with_state (Z.lor (state a) DECODE_STATE_UNDERRUN) a)
            (memset0 out outputArray len) trace)
  else
    let '(a, out) :=
      if bytes_used <? len then
        (with_state (Z.lor (state a) DECODE_STATE_UNDERRUN) a,
         memset0 out (outputArray + bytes_used) (len - bytes_used))
      else
        (with_state
           (Z.land (state a) (to_u32 (Z.lnot DECODE_STATE_UNDERRUN))) a,
         out) in
    let a := skip_ahead skip_bytes a in
    obind
      (copy_loop (Z.to_nat bytes_used) decode_fifo_buf a out
         outputArray bytes_used)
      (fun '(a, out) =>
         let reached_start_point := decode_check_start_point a in
         let a :=
           if reached_start_point
              && negb (track_sample_rate a =? stream_sample_rate)
           then with_set_sample_rate (track_sample_rate a) a
           else a in
         Done (unlock_mixin_effects framesPerBuffer a out trace)).

(** Lines 35-168.  [inputBuffer], [timeInfo] and [userData] are
    unused and [statusFlags] only feeds a debug message; the output
    buffer is passed in and returned as a list of bytes.  The local
    [add_silence_ms] of line 71-73 is computed and dropped: nothing
    stores it back into [decode_audio]. *)
Definition callback (stream_sample_rate : Z) (decode_fifo_buf : list Z)
    (a : decode_audio) (outputBuffer : list Z) (framesPerBuffer : Z)
    : outcome callback_result :=
  let len := SAMPLES_TO_BYTES framesPerBuffer in
  let trace := [EvLock] in
  if negb (flag_set (state a) DECODE_STATE_RUNNING) then
    Done (mixin_effects framesPerBuffer a (memset0 outputBuffer 0 len) trace)
  else
    let ms := to_int (add_silence_ms a) in
    if ms =? 0 then
      callback_play stream_sample_rate decode_fifo_buf framesPerBuffer
        a outputBuffer 0 len trace
    else
      let add_bytes := silence_bytes ms stream_sample_rate len in
      let out := memset0 outputBuffer 0 add_bytes in
      let outputArray := add_bytes in
      let len := len - add_bytes in
      if stream_sample_rate =? 0 then DivisionByZero
      else
        let ms := silence_remaining ms add_bytes stream_sample_rate in
        if len =? 0 then
          Done (unlock_mixin_effects framesPerBuffer a out trace)
        else
          callback_play stream_sample_rate decode_fifo_buf framesPerBuffer
            a out outputArray len trace.

End Render.

(** ** The reconfiguration channel *)

(** The payload of a queued request: the function the worker is to
    run.  This file only ever queues [finished_handler]. *)
Inductive mqueue_func := FinishedHandler.

(** Modelled from the spec: the message queue of audio/mqueue.h, which
    is not part of the sources at hand.  The spec describes a
    single-slot channel holding at most one pending request. *)
Definition mqueue := option mqueue_func.

(** Modelled from the spec: [mqueue_write_request], the first half of
    [try_enqueue]; it fails at once when a request is pending. *)
Definition mqueue_write_request (q : mqueue) : bool :=
  match q with
  | None => true
  | Some _ => false
  end.

(** Modelled from the spec: [mqueue_write_complete], the second half
    of [try_enqueue]; the request becomes the pending one. *)
Definition mqueue_write_complete (f : mqueue_func) (q : mqueue) : mqueue := Some f.

(** Modelled from the spec: [mqueue_read_complete], the worker's
    completion of a request; the slot is free again. *)
Definition mqueue_read_complete (q : mqueue) : mqueue := None.

(** ** Stream life cycle *)

(** The file-level variables together with the shared objects.
    [stream] records whether the [PaStream] pointer is non-NULL. *)
Record world := mk_world {
  decode_audio_of : decode_audio;
  stream : bool;
  stream_sample_rate : Z;
  output_device : Z;
  decode_mqueue : mqueue
}.

Definition with_decode_audio (a : decode_audio) (w : world) : world :=
  mk_world a (stream w) (stream_sample_rate w) (output_device w) (decode_mqueue w).

Definition with_stream (s : bool) (w : world) : world :=
  mk_world (decode_audio_of w) s (stream_sample_rate w) (output_device w)
    (decode_mqueue w).

Definition with_stream_sample_rate (r : Z) (w : world) : world :=
  mk_world (decode_audio_of w) (stream w) r (output_device w) (decode_mqueue w).

Definition with_decode_mqueue (q : mqueue) (w : world) : world :=
  mk_world (decode_audio_of w) (stream w) (stream_sample_rate w)
    (output_device w) q.

(** How PortAudio answers the calls of one [decode_portaudio_openstream]:
    whether each call succeeds, and whether [stream] is non-NULL after
    [Pa_OpenStream]. *)
Record pa_response := mk_pa {
  close_ok : bool;
  open_ok : bool;
  stream_after_open : bool;
  set_finished_ok : bool;
  start_ok : bool
}.

Definition warn_unless (ok : bool) : list event :=
  if ok then [] else [EvWarn].

(** Lines 224-265. *)
Definition decode_portaudio_openstream (pa : pa_response) (w : world)
    : world * list event :=
  let t_close :=
    if stream w then EvCloseStream :: warn_unless (close_ok pa) else [] in
  let rate := set_sample_rate (decode_audio_of w) in
  let w := with_decode_audio (with_set_sample_rate 0 (decode_audio_of w)) w in
  let t_lock := [EvLock; EvTakeRate rate; EvUnlock] in
  let t_open := EvOpenStream rate :: warn_unless (open_ok pa) in
  let w := with_stream (stream_after_open pa) w in
  let w := with_stream_sample_rate rate w in
  let t_fin := EvSetStreamFinishedCallback :: warn_unless (set_finished_ok pa) in
  let t_start := EvStartStream :: warn_unless (start_ok pa) in
  (w, t_close ++ t_lock ++ t_open ++ t_fin ++ t_start).

(** Lines 171-175: run by the worker for a queued request. *)
Definition finished_handler (pa : pa_response) (w : world) : world * list event :=
  let w := with_decode_mqueue (mqueue_read_complete (decode_mqueue w)) w in
  decode_portaudio_openstream pa w.

(** Lines 182-194: the stream-finished notifier. *)
Definition finished (w : world) : world * list event :=
  if negb (set_sample_rate (decode_audio_of w) =? 0) then
    if mqueue_write_request (decode_mqueue w) then
      (with_decode_mqueue
         (mqueue_write_complete FinishedHandler (decode_mqueue w)) w, [])
    else (w, [EvDropped])
  else (w, []).

(** Modelled from the spec: the worker side of the channel, which lives
    in the decoder thread outside this file; it takes the pending
    request, if any, and runs it. *)
Definition worker_step (pa : pa_response) (w : world) : world * list event :=
  match decode_mqueue w with
  | Some FinishedHandler => finished_handler pa w
  | None => (w, [])
  end.

(** Lines 197-203. *)
Definition decode_portaudio_start (pa : pa_response) (w : world)
    : world * list event :=
  decode_portaudio_openstream pa w.

(** Lines 205-211. *)
Definition decode_portaudio_pause (w : world) : world * list event := (w, []).

Definition decode_portaudio_resume (w : world) : world * list event := (w, []).

(** Lines 213-221. *)
Definition decode_portaudio_stop (pa : pa_response) (w : world)
    : world * list event :=
  let w := with_decode_audio (with_set_sample_rate 44100 (decode_audio_of w)) w in
  decode_portaudio_openstream pa w.

(** Lines 285-301: the first device that supports the reference
    format; [supported] lists the answer of [Pa_IsFormatSupported] for
    the devices in order. *)
Fixpoint first_supported (i : Z) (supported : list bool) : option Z :=
  match supported with
  | [] => None
  | ok :: rest => if ok then Some i else first_supported (i + 1) rest
  end.

(** Lines 268-334.  [pa_init_ok] is the answer of [Pa_Initialize], the
    two [malloc_*] flags those of the allocations, [fresh] the contents
    of the newly allocated [struct decode_audio], [fifo_size] the
    constant [DECODE_FIFO_SIZE].  The result is the value returned to
    Lua and, when the backend is available, the world it leaves. *)
Definition decode_portaudio_init (pa_init_ok : bool) (supported : list bool)
    (malloc_buf_ok malloc_audio_ok : bool) (fresh : decode_audio)
    (fifo_size : Z) (pa : pa_response) : Z * option (world * list event) :=
  if negb pa_init_ok then (0, None)
  else
    match first_supported 0 supported with
    | None => (0, None)
    | Some dev =>
        if negb malloc_buf_ok then (0, None)
        else if negb malloc_audio_ok then (0, None)
        else
          let a := with_max_rate 48000 fresh in
          let a := with_set_sample_rate 44100 a in
          let a := with_fifo (fifo_init fifo_size) a in
          let w := mk_world a false 0 dev None in
          (1, Some (decode_portaudio_openstream pa w))
    end.

(** ** Well-formed inputs *)

(** The ring buffer invariant: both indices lie inside the capacity,
    and [decode_fifo_buf] has that many bytes. *)
Definition fifo_ok (f : fifo) (decode_fifo_buf : list Z) : Prop :=
  0 <= rptr f < size f /\ 0 <= wptr f < size f
  /\ Z.of_nat (length decode_fifo_buf) = size f.

(** A byte count or offset that is a whole number of stereo frames. *)
Definition aligned (n : Z) : Prop := n mod (2 * sizeof_sample_t) = 0.

(** The fifo holds whole stereo frames: its capacity, both indices and
    the pending skip are multiples of the frame size. *)
Definition frame_aligned (a : decode_audio) : Prop :=
  aligned (size (fifo_of a)) /\ aligned (rptr (fifo_of a))
  /\ aligned (wptr (fifo_of a)) /\ aligned (skip_ahead_bytes a).

(** What PortAudio hands to the callback: a buffer of exactly
    [framesPerBuffer] frames, at least one, whose byte length fits
    [size_t]; the fields of the shared state are within their types,
    and the stream was opened at a positive rate. *)
Definition callback_pre (stream_rate : Z) (decode_fifo_buf : list Z)
    (a : decode_audio) (outputBuffer : list Z) (framesPerBuffer : Z) : Prop :=
  fifo_ok (fifo_of a) decode_fifo_buf
  /\ 0 <= skip_ahead_bytes a
  /\ 0 < framesPerBuffer
  /\ 2 * framesPerBuffer * sizeof_sample_t < 2 ^ SIZE_BITS
  /\ Z.of_nat (length outputBuffer) = 2 * framesPerBuffer * sizeof_sample_t
  /\ 0 < stream_rate < 2 ^ 32.

(** The output length left after the silence of lines 64-77. *)
Definition len_after_silence (stream_rate : Z) (a : decode_audio)
    (framesPerBuffer : Z) : Z :=
  let len := SAMPLES_TO_BYTES framesPerBuffer in
  let ms := to_int (add_silence_ms a) in
  if ms =? 0 then len else len - silence_bytes ms stream_rate len.

(** The shared state once [skip] bytes were skipped and [used] bytes
    copied: the read index advanced by both, the skip counter lowered
    by the skip, the elapsed-sample counter raised by the frames of
    both, the underrun flag set or cleared. *)
Definition audio_consumed (a : decode_audio) (underrun : bool) (skip used : Z)
    : decode_audio :=
  mk_audio
    (if underrun then Z.lor (state a) DECODE_STATE_UNDERRUN
     else Z.land (state a) (to_u32 (Z.lnot DECODE_STATE_UNDERRUN)))
    (fifo_rptr_incby (fifo_of a) (skip + used))
    (lgain a) (rgain a) (add_silence_ms a)
    (skip_ahead_bytes a - skip)
    (elapsed_samples a + BYTES_TO_SAMPLES (skip + used))
    (track_sample_rate a) (set_sample_rate a) (max_rate a).

(** The sample-rate check of lines 155-158. *)
Definition note_track_rate (check : decode_audio -> bool) (stream_rate : Z)
    (a : decode_audio) : decode_audio :=
  if check a && negb (track_sample_rate a =? stream_rate)
  then with_set_sample_rate (track_sample_rate a) a
  else a.

(** ** Sample inputs *)

Module Sample.

(** A 16.16 fixed-point multiply, no effects to mix, and a start
    point taken as reached once the read index has wrapped into the
    first half of the fifo. *)
Definition fixed_mul (g s : Z) : Z := to_int ((g * s) / 2 ^ 16).
Definition no_mix (out : list Z) (len : Z) : list Z := out.
Definition wrapped (a : decode_audio) : bool := rptr (fifo_of a) <? 16.

(** A fifo of four frames holding the samples 1..8; the read index
    is at the third frame and the write index at the second, so three
    frames are buffered and the last of them lies past the wrap. *)
Definition fifo_buf : list Z :=
  [1;0;0;0; 2;0;0;0;  3;0;0;0; 4;0;0;0;
   5;0;0;0; 6;0;0;0;  7;0;0;0; 8;0;0;0].

Definition audio : decode_audio :=
  mk_audio DECODE_STATE_RUNNING (mk_fifo 16 8 32) (2 * 2 ^ 16) (3 * 2 ^ 16)
    0 0 100 48000 0 48000.

Definition stopped : decode_audio := with_state 0 audio.

Definition out2 : list Z := replicate 16 255.
Definition out4 : list Z := replicate 32 255.

Definition pa_ok : pa_response := mk_pa true true true true true.

Definition world0 : world := mk_world audio true 44100 0 None.

(** Sixteen bytes of skip pending. *)
Definition skipping : decode_audio := with_skip_ahead_bytes 16 audio.

(** A rate change pending while a request is already queued. *)
Definition world_pending : world :=
  mk_world (with_set_sample_rate 48000 audio) true 44100 0
    (Some FinishedHandler).

(** One millisecond of silence pending. *)
Definition silent : decode_audio :=
  mk_audio DECODE_STATE_RUNNING (mk_fifo 16 8 32) (2 * 2 ^ 16) (3 * 2 ^ 16)
    1 0 100 48000 0 48000.

(** A multiply that passes samples through, for unity gain. *)
Definition unity_mul (g s : Z) : Z := s.

(** The sample fifo memory with other bytes in the one frame that is
    not buffered (bytes 8 to 15). *)
Definition fifo_buf_stale : list Z :=
  [1;0;0;0; 2;0;0;0;  9;9;9;9; 9;9;9;9;
   5;0;0;0; 6;0;0;0;  7;0;0;0; 8;0;0;0].

(** PortAudio failing to close the old stream, to register the
    notifier and to start the new stream. *)
Definition pa_failing : pa_response := mk_pa false true true false false.

(** Three devices, the first of which does not support the format. *)
Definition devices : list bool := [false; true; true].

(** A request that the pending silence fills completely, with the
    underrun flag left set by an earlier call. *)
Definition silent_underrun : decode_audio :=
  mk_audio (Z.lor DECODE_STATE_RUNNING DECODE_STATE_UNDERRUN)
    (mk_fifo 16 8 32) (2 * 2 ^ 16) (3 * 2 ^ 16) 1 0 100 48000 0 48000.

End Sample.

(** ** Further notions used in the properties *)

(** Two fifo memories agree on the buffered bytes, those from the read
    index up to the write index. *)
Definition buffered_agree (f : fifo) (buf buf' : list Z) : Prop :=
  forall j, 0 <= j < fifo_bytes_used f ->
    byte_at buf ((rptr f + j) mod size f)
    = byte_at buf' ((rptr f + j) mod size f).

Definition is_byte (b : Z) : Prop := 0 <= b < 256.

(** The PortAudio stream calls of a trace, in order. *)
Definition stream_calls (t : list event) : list event :=
  List.filter is_stream_event t.

(** The number of warnings logged in a trace. *)
Definition count_warnings (t : list event) : nat :=
  length (List.filter (fun e => match e with EvWarn => true | _ => false end) t).

Definition failed (ok : bool) : nat := if ok then 0%nat else 1%nat.

(** The shared state after [n] callbacks in a row for the same request,
    with the decoder idle in between. *)
Fixpoint after_callbacks (fixed_mul : Z -> Z -> Z)
    (decode_sample_mix : list Z -> Z -> list Z)
    (decode_check_start_point : decode_audio -> bool)
    (n : nat) (stream_sample_rate : Z) (decode_fifo_buf : list Z)
    (a : decode_audio) (outputBuffer : list Z) (framesPerBuffer : Z)
    : outcome decode_audio :=
  match n with
  | O => Done a
  | S n =>
      obind
        (callback fixed_mul decode_sample_mix decode_check_start_point
           stream_sample_rate decode_fifo_buf a outputBuffer framesPerBuffer)
        (fun r =>
           after_callbacks fixed_mul decode_sample_mix decode_check_start_point
             n stream_sample_rate decode_fifo_buf (res_audio r)
             outputBuffer framesPerBuffer)
  end.

(** * Proofs *)

(** Unfold the field updates and reduce the projections. *)
Ltac audio_simpl :=
  cbv beta iota delta
    [audio_consumed with_elapsed_samples with_skip_ahead_bytes
     audio_rptr_incby with_fifo with_state with_set_sample_rate
     with_max_rate fifo_rptr_incby fifo_bytes_until_rptr_wrap
     state fifo_of lgain rgain add_silence_ms skip_ahead_bytes
     elapsed_samples track_sample_rate set_sample_rate max_rate
     rptr wptr size].

Ltac audio_simpl_in H :=
  cbv beta iota delta
    [audio_consumed with_elapsed_samples with_skip_ahead_bytes
     audio_rptr_incby with_fifo with_state with_set_sample_rate
     with_max_rate fifo_rptr_incby fifo_bytes_until_rptr_wrap
     state fifo_of lgain rgain add_silence_ms skip_ahead_bytes
     elapsed_samples track_sample_rate set_sample_rate max_rate
     rptr wptr size] in H.

(** ** Integers *)

Lemma SAMPLES_TO_BYTES_small n :
  0 <= n -> 2 * n * sizeof_sample_t < 2 ^ SIZE_BITS ->
  SAMPLES_TO_BYTES n = 8 * n.
Proof.
  intros Hn Hlt. unfold SAMPLES_TO_BYTES, to_size_t.
  unfold sizeof_sample_t, SIZE_BITS in *.
  rewrite Z.mod_small; lia.
Qed.

Lemma SAMPLES_TO_BYTES_range n : 0 <= SAMPLES_TO_BYTES n < 2 ^ 32.
Proof.
  unfold SAMPLES_TO_BYTES, to_size_t, SIZE_BITS. apply Z.mod_pos_bound. lia.
Qed.

Lemma aligned_iff n : aligned n <-> exists k, n = 8 * k.
Proof.
  unfold aligned, sizeof_sample_t. change (2 * 4) with 8. split.
  - intros H. exists (n / 8). pose proof (Z.div_mod n 8). lia.
  - intros [k ->]. rewrite Z.mul_comm. apply Z.mod_mul. lia.
Qed.

Lemma aligned_0 : aligned 0.
Proof. reflexivity. Qed.

Lemma aligned_add a b : aligned a -> aligned b -> aligned (a + b).
Proof.
  rewrite !aligned_iff. intros [x ->] [y ->]. exists (x + y). lia.
Qed.

Lemma aligned_sub a b : aligned a -> aligned b -> aligned (a - b).
Proof.
  rewrite !aligned_iff. intros [x ->] [y ->]. exists (x - y). lia.
Qed.

Lemma aligned_mod a sz : aligned a -> aligned sz -> aligned (a mod sz).
Proof.
  destruct (Z.eq_dec sz 0) as [->|Hsz].
  { intros Ha _. now rewrite Z.mod_0_r. }
  rewrite (Z.mod_eq a sz) by exact Hsz.
  rewrite !aligned_iff. intros [x ->] [y ->].
  exists (x - y * (8 * x / (8 * y))). lia.
Qed.

Lemma aligned_SAMPLES_TO_BYTES n : aligned (SAMPLES_TO_BYTES n).
Proof.
  unfold SAMPLES_TO_BYTES, to_size_t, SIZE_BITS, sizeof_sample_t.
  apply aligned_mod.
  - apply aligned_iff. exists n. lia.
  - reflexivity.
Qed.

Lemma BYTES_TO_SAMPLES_add a b :
  aligned a -> BYTES_TO_SAMPLES (a + b) = BYTES_TO_SAMPLES a + BYTES_TO_SAMPLES b.
Proof.
  intros [k ->]%aligned_iff. unfold BYTES_TO_SAMPLES, sizeof_sample_t.
  change (2 * 4) with 8.
  rewrite (Z.add_comm (8 * k)), (Z.mul_comm 8 k), Z.div_add by lia.
  rewrite Z.div_mul by lia. lia.
Qed.

Lemma BYTES_TO_SAMPLES_aligned n :
  aligned n -> 8 * BYTES_TO_SAMPLES n = n.
Proof.
  intros [k ->]%aligned_iff. unfold BYTES_TO_SAMPLES, sizeof_sample_t.
  change (2 * 4) with 8. rewrite (Z.mul_comm 8 k), Z.div_mul; lia.
Qed.

Lemma BYTES_TO_SAMPLES_nonneg n : 0 <= n -> 0 <= BYTES_TO_SAMPLES n.
Proof.
  intros. unfold BYTES_TO_SAMPLES, sizeof_sample_t. apply Z.div_pos; lia.
Qed.

(** A value that fits [sample_t] is left alone by the conversion. *)
Lemma to_int_small z : - 2 ^ 31 <= z < 2 ^ 31 -> to_int z = z.
Proof.
  intros Hz. unfold to_int.
  destruct (Z.ltb_spec (z mod 2 ^ 32) (2 ^ 31)) as [H|H];
    Z.div_mod_to_equations; lia.
Qed.

(** ** State flags *)

Lemma land_pow2 st n :
  0 <= n -> Z.land st (2 ^ n) = if Z.testbit st n then 2 ^ n else 0.
Proof.
  intros Hn. apply Z.bits_inj'. intros m Hm.
  rewrite Z.land_spec, Z.pow2_bits_eqb by exact Hn.
  destruct (Z.eqb_spec n m) as [->|Hne].
  - destruct (Z.testbit st m); simpl.
    + now rewrite Z.pow2_bits_true.
    + now rewrite Z.bits_0.
  - rewrite andb_false_r. destruct (Z.testbit st n).
    + now rewrite Z.pow2_bits_false.
    + now rewrite Z.bits_0.
Qed.

Lemma flag_set_running st :
  flag_set st DECODE_STATE_RUNNING = Z.testbit st 0.
Proof.
  unfold flag_set, DECODE_STATE_RUNNING. change 1 with (2 ^ 0).
  rewrite land_pow2 by lia. now destruct (Z.testbit st 0).
Qed.

Lemma flag_set_underrun st :
  flag_set st DECODE_STATE_UNDERRUN = Z.testbit st 1.
Proof.
  unfold flag_set, DECODE_STATE_UNDERRUN. change 2 with (2 ^ 1).
  rewrite land_pow2 by lia. now destruct (Z.testbit st 1).
Qed.

Lemma underrun_after_set st :
  flag_set (Z.lor st DECODE_STATE_UNDERRUN) DECODE_STATE_UNDERRUN = true.
Proof.
  rewrite flag_set_underrun, Z.lor_spec. unfold DECODE_STATE_UNDERRUN.
  change (Z.testbit 2 1) with true. apply orb_true_r.
Qed.

Lemma underrun_after_clear st :
  flag_set (Z.land st (to_u32 (Z.lnot DECODE_STATE_UNDERRUN)))
    DECODE_STATE_UNDERRUN = false.
Proof.
  rewrite flag_set_underrun, Z.land_spec.
  change (Z.testbit (to_u32 (Z.lnot DECODE_STATE_UNDERRUN)) 1) with false.
  apply andb_false_r.
Qed.

Lemma running_after_set st :
  flag_set (Z.lor st DECODE_STATE_UNDERRUN) DECODE_STATE_RUNNING
  = flag_set st DECODE_STATE_RUNNING.
Proof.
  rewrite !flag_set_running, Z.lor_spec. unfold DECODE_STATE_UNDERRUN.
  change (Z.testbit 2 0) with false. apply orb_false_r.
Qed.

Lemma running_after_clear st :
  flag_set (Z.land st (to_u32 (Z.lnot DECODE_STATE_UNDERRUN)))
    DECODE_STATE_RUNNING = flag_set st DECODE_STATE_RUNNING.
Proof.
  rewrite !flag_set_running, Z.land_spec.
  change (Z.testbit (to_u32 (Z.lnot DECODE_STATE_UNDERRUN)) 0) with true.
  apply andb_true_r.
Qed.

(** ** Byte memory *)

Lemma length_encode_sample v : length (encode_sample v) = 4%nat.
Proof. reflexivity. Qed.

Lemma length_write_bytes mem off bytes :
  length (write_bytes mem off bytes) = length mem.
Proof. apply length_inserts. Qed.

Lemma write_bytes_nil mem off : write_bytes mem off [] = mem.
Proof. reflexivity. Qed.

Lemma memset0_nothing mem off : memset0 mem off 0 = mem.
Proof. reflexivity. Qed.

Lemma write_bytes_app mem off k1 k2 :
  0 <= off ->
  write_bytes mem off (k1 ++ k2)
  = write_bytes (write_bytes mem off k1) (off + Z.of_nat (length k1)) k2.
Proof.
  intros Hoff. unfold write_bytes. rewrite list_inserts_app_l.
  f_equal. lia.
Qed.

(** A write that exactly covers the middle block of a buffer. *)
Lemma write_bytes_middle pre mid post off bytes :
  Z.to_nat off = length pre -> length bytes = length mid ->
  write_bytes (pre ++ mid ++ post) off bytes = pre ++ bytes ++ post.
Proof.
  intros Hoff Hlen. unfold write_bytes. rewrite Hoff.
  rewrite <- (Nat.add_0_r (length pre)), list_inserts_app_r.
  now rewrite list_inserts_0_r.
Qed.

Lemma memset0_all out n :
  Z.of_nat (length out) = n -> memset0 out 0 n = replicate (Z.to_nat n) 0.
Proof.
  intros H. unfold memset0.
  pose proof (write_bytes_middle [] out [] 0 (replicate (Z.to_nat n) 0) eq_refl)
    as E.
  cbn [app] in E. rewrite !app_nil_r in E. apply E.
  rewrite length_replicate. lia.
Qed.

(** The three writes of a callback on a buffer of the right length:
    silence at the front, silence at the back, frames in between. *)
Lemma write_three out (na nb nc : nat) frames :
  length out = (na + nb + nc)%nat -> length frames = nb ->
  write_bytes
    (write_bytes
       (write_bytes out 0 (replicate na 0))
       (Z.of_nat (na + nb)) (replicate nc 0))
    (Z.of_nat na) frames
  = replicate na 0 ++ frames ++ replicate nc 0.
Proof.
  intros Hout Hfr.
  pose (o1 := take na out). pose (o2 := take nb (drop na out)).
  pose (o3 := drop nb (drop na out)).
  assert (H1 : length o1 = na) by (subst o1; rewrite length_take; lia).
  assert (H2 : length o2 = nb)
    by (subst o2; rewrite length_take, length_drop; lia).
  assert (H3 : length o3 = nc)
    by (subst o3; rewrite !length_drop; lia).
  assert (Hd : out = [] ++ o1 ++ o2 ++ o3).
  { subst o1 o2 o3. simpl. now rewrite !take_drop. }
  clearbody o1 o2 o3. subst out.
  rewrite (write_bytes_middle [] o1 (o2 ++ o3) 0 (replicate na 0));
    [|reflexivity|now rewrite length_replicate].
  simpl app.
  replace (replicate na 0 ++ o2 ++ o3)
    with ((replicate na 0 ++ o2) ++ o3 ++ []) by
    now rewrite <- app_assoc, app_nil_r.
  rewrite (write_bytes_middle _ o3 [] _ (replicate nc 0));
    [|rewrite length_app, length_replicate; lia|now rewrite length_replicate].
  rewrite app_nil_r, <- app_assoc.
  apply write_bytes_middle; [rewrite length_replicate; lia|congruence].
Qed.

(** *** Loads and stores *)

Lemma bytes_sum v :
  v mod 256 + 2 ^ 8 * ((v / 2 ^ 8) mod 256) + 2 ^ 16 * ((v / 2 ^ 16) mod 256)
  + 2 ^ 24 * ((v / 2 ^ 24) mod 256) = v mod 2 ^ 32.
Proof. Z.div_mod_to_equations. lia. Qed.

Lemma to_int_mod v : to_int (v mod 2 ^ 32) = to_int v.
Proof. unfold to_int. now rewrite Zmod_mod. Qed.

(** A sample stored and loaded again comes back reduced to [int]. *)
Lemma load_encode_sample v rest :
  load_sample (encode_sample v ++ rest) 0 = to_int v.
Proof.
  unfold load_sample, byte_at, encode_sample. cbn.
  rewrite <- (to_int_mod v), <- bytes_sum. reflexivity.
Qed.

Lemma byte_at_app_r pre mem i :
  0 <= i -> byte_at (pre ++ mem) (Z.of_nat (length pre) + i) = byte_at mem i.
Proof.
  intros Hi. unfold byte_at. rewrite lookup_app_r by lia.
  do 2 f_equal. lia.
Qed.

Lemma byte_at_app_l mem post i :
  0 <= i < Z.of_nat (length mem) -> byte_at (mem ++ post) i = byte_at mem i.
Proof.
  intros Hi. unfold byte_at. rewrite lookup_app_l by lia. reflexivity.
Qed.

Lemma load_sample_app_r pre mem i :
  0 <= i ->
  load_sample (pre ++ mem) (Z.of_nat (length pre) + i) = load_sample mem i.
Proof.
  intros Hi. unfold load_sample.
  rewrite <- !Z.add_assoc, !byte_at_app_r by lia. reflexivity.
Qed.

Lemma load_sample_app_l mem post i :
  0 <= i -> i + 4 <= Z.of_nat (length mem) ->
  load_sample (mem ++ post) i = load_sample mem i.
Proof.
  intros Hi Hfit. unfold load_sample.
  rewrite !byte_at_app_l by lia. reflexivity.
Qed.

Lemma byte_at_write_inside mem off bytes i :
  0 <= off -> off <= i < off + Z.of_nat (length bytes) ->
  off + Z.of_nat (length bytes) <= Z.of_nat (length mem) ->
  byte_at (write_bytes mem off bytes) i = byte_at bytes (i - off).
Proof.
  intros Hoff Hi Hfit. unfold byte_at, write_bytes.
  rewrite list_lookup_inserts by lia. do 2 f_equal. lia.
Qed.

Lemma byte_at_write_outside mem off bytes i :
  0 <= off -> 0 <= i ->
  i < off \/ off + Z.of_nat (length bytes) <= i ->
  byte_at (write_bytes mem off bytes) i = byte_at mem i.
Proof.
  intros Hoff Hi [Hlt|Hge]; unfold byte_at, write_bytes.
  - now rewrite list_lookup_inserts_lt by lia.
  - now rewrite list_lookup_inserts_ge by lia.
Qed.

(** A load that falls inside a block just written reads the block. *)
Lemma load_write_inside mem off bytes i :
  0 <= off -> off <= i -> i + 4 <= off + Z.of_nat (length bytes) ->
  off + Z.of_nat (length bytes) <= Z.of_nat (length mem) ->
  load_sample (write_bytes mem off bytes) i = load_sample bytes (i - off).
Proof.
  intros Hoff Hi Hin Hfit. unfold load_sample.
  rewrite !byte_at_write_inside by lia.
  repeat f_equal; lia.
Qed.

(** A load that stays clear of a written block reads what was there. *)
Lemma load_write_outside mem off bytes i :
  0 <= off -> 0 <= i ->
  i + 4 <= off \/ off + Z.of_nat (length bytes) <= i ->
  load_sample (write_bytes mem off bytes) i = load_sample mem i.
Proof.
  intros Hoff Hi Hout. unfold load_sample.
  rewrite !byte_at_write_outside by lia. reflexivity.
Qed.

Section RenderProofs.

Variable fixed_mul : Z -> Z -> Z.
Variable decode_sample_mix : list Z -> Z -> list Z.
Variable decode_check_start_point : decode_audio -> bool.

Lemma length_gain_frame lg rg buf off :
  length (gain_frame fixed_mul lg rg buf off) = 8%nat.
Proof. reflexivity. Qed.

Lemma length_gain_frames n lg rg buf off :
  length (gain_frames fixed_mul n lg rg buf off) = (8 * n)%nat.
Proof.
  revert off. induction n as [|n IH]; intros off.
  - reflexivity.
  - cbn [gain_frames]. rewrite length_app, IH, length_gain_frame. lia.
Qed.

Lemma length_ring_frames n lg rg buf sz off :
  length (ring_frames fixed_mul n lg rg buf sz off) = (8 * n)%nat.
Proof.
  revert off. induction n as [|n IH]; intros off.
  - reflexivity.
  - cbn [ring_frames]. rewrite length_app, IH, length_gain_frame. lia.
Qed.

(** Frame [k] of a contiguous run carries the two samples found at
    [off + 8 k], each times its gain. *)
Lemma load_gain_frames n lg rg buf off k :
  (k < n)%nat ->
  let src := off + 8 * Z.of_nat k in
  let frames := gain_frames fixed_mul n lg rg buf off in
  load_sample frames (8 * Z.of_nat k)
  = to_int (fixed_mul lg (load_sample buf src))
  /\ load_sample frames (8 * Z.of_nat k + 4)
    = to_int (fixed_mul rg (load_sample buf (src + 4))).
Proof.
  revert off k. induction n as [|n IH]; intros off k Hk; [lia|].
  cbv zeta. cbn [gain_frames]. unfold gain_frame.
  destruct k as [|k].
  - cbn [Z.of_nat Z.mul Z.add]. rewrite Z.mul_0_r, Z.add_0_r.
    rewrite <- !app_assoc. split.
    + apply load_encode_sample.
    + match goal with
      | |- load_sample (?p ++ ?m) _ = _ =>
          change (load_sample (p ++ m) (Z.of_nat (length p) + 0)
                  = to_int (fixed_mul rg (load_sample buf (off + 4))))
      end.
      rewrite load_sample_app_r by lia.
      apply load_encode_sample.
  - destruct (IH (off + 2 * sizeof_sample_t) k) as [IHl IHr]; [lia|].
    cbv zeta in IHl, IHr. unfold sizeof_sample_t in *.
    replace (off + 2 * 4 + 8 * Z.of_nat k) with (off + 8 * Z.of_nat (S k))
      in IHl, IHr by lia.
    rewrite <- IHl, <- IHr.
    set (fr := encode_sample _ ++ encode_sample _).
    assert (Hfr : Z.of_nat (length fr) = 8) by reflexivity.
    split.
    + replace (8 * Z.of_nat (S k))
        with (Z.of_nat (length fr) + 8 * Z.of_nat k) by lia.
      apply load_sample_app_r. lia.
    + replace (8 * Z.of_nat (S k) + 4)
        with (Z.of_nat (length fr) + (8 * Z.of_nat k + 4)) by lia.
      apply load_sample_app_r. lia.
Qed.

(** The inner loop writes the gain-scaled frames, and nothing else. *)
Lemma copy_frames_spec n lg rg buf src out dst :
  0 <= dst ->
  copy_frames fixed_mul n lg rg buf src out dst
  = write_bytes out dst (gain_frames fixed_mul n lg rg buf src).
Proof.
  revert src out dst. induction n as [|n IH]; intros src out dst Hdst.
  - reflexivity.
  - cbn [copy_frames gain_frames].
    rewrite IH by (unfold sizeof_sample_t; lia).
    unfold gain_frame, store_sample.
    rewrite (write_bytes_app out dst (_ ++ _)) by exact Hdst.
    rewrite (write_bytes_app out dst) by exact Hdst.
    rewrite length_app, !length_encode_sample.
    unfold sizeof_sample_t. f_equal.
Qed.

(** *** Reading around the ring *)

Lemma ring_frames_no_wrap n lg rg buf sz off :
  0 <= off -> off + 8 * Z.of_nat n <= sz ->
  ring_frames fixed_mul n lg rg buf sz off
  = gain_frames fixed_mul n lg rg buf off.
Proof.
  revert off. induction n as [|n IH]; intros off Hoff Hfit.
  - reflexivity.
  - cbn [ring_frames gain_frames]. f_equal.
    destruct n as [|n]; [reflexivity|].
    unfold sizeof_sample_t in *.
    rewrite Z.mod_small by lia. apply IH; lia.
Qed.

Lemma ring_frames_app n1 n2 lg rg buf sz off :
  0 <= off < sz ->
  ring_frames fixed_mul (n1 + n2) lg rg buf sz off
  = ring_frames fixed_mul n1 lg rg buf sz off
    ++ ring_frames fixed_mul n2 lg rg buf sz ((off + 8 * Z.of_nat n1) mod sz).
Proof.
  revert off. induction n1 as [|n1 IH]; intros off Hoff.
  - cbn [ring_frames Nat.add app]. f_equal.
    rewrite Z.mod_small; lia.
  - cbn [ring_frames Nat.add]. rewrite <- app_assoc. f_equal.
    rewrite IH by (apply Z.mod_pos_bound; lia).
    f_equal. f_equal. unfold sizeof_sample_t.
    rewrite Zplus_mod_idemp_l. f_equal. lia.
Qed.

(** Frame [k] of a run read around the ring is the frame stored at
    [(off + 8 k) mod sz], left sample times left gain and right
    sample times right gain. *)
Lemma load_ring_frames n lg rg buf sz off k :
  0 <= off < sz -> (k < n)%nat ->
  let src := (off + 8 * Z.of_nat k) mod sz in
  let frames := ring_frames fixed_mul n lg rg buf sz off in
  load_sample frames (8 * Z.of_nat k)
  = to_int (fixed_mul lg (load_sample buf src))
  /\ load_sample frames (8 * Z.of_nat k + 4)
    = to_int (fixed_mul rg (load_sample buf (src + 4))).
Proof.
  revert off k. induction n as [|n IH]; intros off k Hoff Hk; [lia|].
  cbv zeta. cbn [ring_frames]. unfold gain_frame.
  destruct k as [|k].
  - cbn [Z.of_nat Z.mul Z.add]. rewrite Z.mul_0_r, Z.add_0_r.
    rewrite (Z.mod_small off sz) by lia. rewrite <- !app_assoc. split.
    + apply load_encode_sample.
    + match goal with
      | |- load_sample (?p ++ ?m) _ = _ =>
          change (load_sample (p ++ m) (Z.of_nat (length p) + 0) = to_int (fixed_mul rg (load_sample buf (off + 4))))
      end.
      rewrite load_sample_app_r by lia.
      apply load_encode_sample.
  - destruct (IH ((off + 2 * sizeof_sample_t) mod sz) k) as [IHl IHr];
      [apply Z.mod_pos_bound; lia|lia|].
    cbv zeta in IHl, IHr.
    rewrite Zplus_mod_idemp_l in IHl, IHr.
    unfold sizeof_sample_t in *.
    replace (off + 2 * 4 + 8 * Z.of_nat k) with (off + 8 * Z.of_nat (S k))
      in IHl, IHr by lia.
    rewrite <- IHl, <- IHr.
    set (fr := encode_sample _ ++ encode_sample _).
    assert (Hfr : Z.of_nat (length fr) = 8) by reflexivity.
    split.
    + replace (8 * Z.of_nat (S k))
        with (Z.of_nat (length fr) + 8 * Z.of_nat k) by lia.
      apply load_sample_app_r. lia.
    + replace (8 * Z.of_nat (S k) + 4)
        with (Z.of_nat (length fr) + (8 * Z.of_nat k + 4)) by lia.
      apply load_sample_app_r. lia.
Qed.

(** Two contiguous segments, up to the wrap and from index 0, are
    the frames read around the ring. *)
Lemma two_segments_ring lg rg buf sz r n :
  0 <= r < sz -> 0 <= n <= sz ->
  aligned r -> aligned sz -> aligned n ->
  let n1 := if sz - r <? n then sz - r else n in
  gain_frames fixed_mul (Z.to_nat (BYTES_TO_SAMPLES n1)) lg rg buf r
  ++ gain_frames fixed_mul (Z.to_nat (BYTES_TO_SAMPLES (n - n1))) lg rg buf 0
  = ring_frames fixed_mul (Z.to_nat (BYTES_TO_SAMPLES n)) lg rg buf sz r.
Proof.
  intros Hr Hn Ar Asz An n1. subst n1.
  destruct (Z.ltb_spec (sz - r) n) as [Hw|Hw].
  - assert (Aw : aligned (sz - r)) by now apply aligned_sub.
    assert (An2 : aligned (n - (sz - r))) by now apply aligned_sub.
    pose proof (BYTES_TO_SAMPLES_aligned _ Aw) as Ew.
    pose proof (BYTES_TO_SAMPLES_aligned _ An2) as En2.
    assert (E : BYTES_TO_SAMPLES n
                = BYTES_TO_SAMPLES (sz - r) + BYTES_TO_SAMPLES (n - (sz - r))).
    { rewrite <- BYTES_TO_SAMPLES_add by exact Aw. f_equal. lia. }
    rewrite E.
    rewrite Z2Nat.inj_add by (apply BYTES_TO_SAMPLES_nonneg; lia).
    rewrite ring_frames_app by exact Hr.
    rewrite Z2Nat.id by (apply BYTES_TO_SAMPLES_nonneg; lia).
    rewrite Ew. replace (r + (sz - r)) with sz by lia.
    rewrite Z_mod_same_full.
    rewrite !ring_frames_no_wrap; try reflexivity; try lia;
      rewrite Z2Nat.id by (apply BYTES_TO_SAMPLES_nonneg; lia); lia.
  - replace (n - n) with 0 by lia. cbn [BYTES_TO_SAMPLES Z.to_nat gain_frames].
    change (Z.to_nat (BYTES_TO_SAMPLES 0)) with 0%nat.
    cbn [gain_frames]. rewrite app_nil_r.
    pose proof (BYTES_TO_SAMPLES_aligned _ An) as En.
    rewrite ring_frames_no_wrap; [reflexivity|lia|].
    rewrite Z2Nat.id by (apply BYTES_TO_SAMPLES_nonneg; lia). lia.
Qed.

(** *** The skip *)

Lemma skip_ahead_spec a skip_bytes :
  0 <= rptr (fifo_of a) < size (fifo_of a) ->
  0 <= skip_bytes ->
  aligned (size (fifo_of a)) -> aligned (rptr (fifo_of a)) ->
  skip_ahead skip_bytes a
  = with_elapsed_samples (elapsed_samples a + BYTES_TO_SAMPLES skip_bytes)
      (with_skip_ahead_bytes (skip_ahead_bytes a - skip_bytes)
         (audio_rptr_incby skip_bytes a)).
Proof.
  intros Hr Hs Asz Ar. unfold skip_ahead.
  destruct a as [st [r w sz] lg rg ms sa el tr ssr mr].
  audio_simpl. audio_simpl_in Hr. audio_simpl_in Asz. audio_simpl_in Ar.
  destruct (Z.eqb_spec skip_bytes 0) as [->|Hnz].
  - rewrite Z.add_0_r, Z.mod_small by lia.
    change (BYTES_TO_SAMPLES 0) with 0.
    f_equal; lia.
  - destruct (Z.ltb_spec (sz - r) skip_bytes) as [Hw|Hw].
    + f_equal.
      * f_equal. rewrite Zplus_mod_idemp_l. f_equal. lia.
      * lia.
      * assert (Aw : aligned (sz - r)) by now apply aligned_sub.
        assert (E : BYTES_TO_SAMPLES skip_bytes
                    = BYTES_TO_SAMPLES (sz - r)
                      + BYTES_TO_SAMPLES (skip_bytes - (sz - r))).
        { rewrite <- BYTES_TO_SAMPLES_add by exact Aw. f_equal. lia. }
        rewrite E. lia.
    + reflexivity.
Qed.

(** *** The copy loop *)

Lemma copy_loop_done fuel buf a out o :
  copy_loop fixed_mul fuel buf a out o 0 = Done (a, out).
Proof. destruct fuel; reflexivity. Qed.

Lemma copy_loop_step fuel buf a out o n :
  n <> 0 ->
  copy_loop fixed_mul (S fuel) buf a out o n
  = let wrap := fifo_bytes_until_rptr_wrap (fifo_of a) in
    let bytes_write := if wrap <? n then wrap else n in
    copy_loop fixed_mul fuel buf
      (with_elapsed_samples
         (elapsed_samples (audio_rptr_incby bytes_write a)
          + BYTES_TO_SAMPLES bytes_write)
         (audio_rptr_incby bytes_write a))
      (copy_frames fixed_mul (Z.to_nat (BYTES_TO_SAMPLES bytes_write))
         (lgain a) (rgain a) buf (rptr (fifo_of a)) out o)
      (o + bytes_write) (n - bytes_write).
Proof.
  intros Hn. cbn [copy_loop].
  destruct (Z.eqb_spec n 0) as [E|_]; [contradiction|reflexivity].
Qed.

(** The copy runs in at most two rounds: up to the wrap, then from
    index 0.  No alignment is needed for this. *)
Lemma copy_loop_two_segments buf a out o n :
  0 <= rptr (fifo_of a) < size (fifo_of a) ->
  0 < n <= size (fifo_of a) -> 0 <= o ->
  let wrap := size (fifo_of a) - rptr (fifo_of a) in
  let n1 := if wrap <? n then wrap else n in
  copy_loop fixed_mul (Z.to_nat n) buf a out o n
  = Done
      (with_elapsed_samples
         (elapsed_samples a + BYTES_TO_SAMPLES n1 + BYTES_TO_SAMPLES (n - n1))
         (audio_rptr_incby n a),
       write_bytes
         (write_bytes out o
            (gain_frames fixed_mul (Z.to_nat (BYTES_TO_SAMPLES n1))
               (lgain a) (rgain a) buf (rptr (fifo_of a))))
         (o + n1)
         (gain_frames fixed_mul (Z.to_nat (BYTES_TO_SAMPLES (n - n1)))
            (lgain a) (rgain a) buf 0)).
Proof.
  intros Hr Hn Ho wrap n1.
  destruct a as [st [r w sz] lg rg ms sa el tr ssr mr].
  cbn [fifo_of rptr size lgain rgain elapsed_samples] in *.
  destruct (Z.to_nat n) as [|fuel] eqn:Efuel; [lia|].
  rewrite copy_loop_step by lia.
  unfold fifo_bytes_until_rptr_wrap, audio_rptr_incby, with_fifo,
    with_elapsed_samples, fifo_rptr_incby.
  cbn [fifo_of rptr wptr size state lgain rgain add_silence_ms
       skip_ahead_bytes elapsed_samples track_sample_rate
       set_sample_rate max_rate].
  fold wrap. fold n1. cbv zeta.
  rewrite copy_frames_spec by exact Ho.
  subst n1. destruct (Z.ltb_spec wrap n) as [Hw|Hw].
  - (* the segment up to the wrap, then one more from index 0 *)
    destruct fuel as [|fuel]; [lia|].
    rewrite copy_loop_step by lia.
    unfold fifo_bytes_until_rptr_wrap, audio_rptr_incby, with_fifo,
      with_elapsed_samples, fifo_rptr_incby.
    cbn [fifo_of rptr wptr size state lgain rgain add_silence_ms
         skip_ahead_bytes elapsed_samples track_sample_rate
         set_sample_rate max_rate].
    replace (r + wrap) with sz by (subst wrap; lia).
    rewrite Z_mod_same_full, Z.sub_0_r, Z.add_0_l.
    destruct (Z.ltb_spec sz (n - wrap)) as [Hbig|_]; [lia|].
    cbv zeta. rewrite Z.sub_diag, copy_loop_done.
    rewrite copy_frames_spec by lia.
    do 2 f_equal. f_equal. f_equal.
    replace (r + n) with ((n - wrap) + 1 * sz) by (subst wrap; lia).
    now rewrite Z_mod_plus_full.
  - (* a single segment *)
    rewrite Z.sub_diag, copy_loop_done.
    change (Z.to_nat (BYTES_TO_SAMPLES 0)) with 0%nat.
    cbn [gain_frames]. rewrite write_bytes_nil.
    change (BYTES_TO_SAMPLES 0) with 0. rewrite Z.add_0_r.
    reflexivity.
Qed.

(** Under frame alignment the two segments join into one run of
    frames read around the ring. *)
Lemma copy_loop_aligned buf a out o n :
  0 <= rptr (fifo_of a) < size (fifo_of a) ->
  0 < n <= size (fifo_of a) -> 0 <= o ->
  aligned (size (fifo_of a)) -> aligned (rptr (fifo_of a)) -> aligned n ->
  copy_loop fixed_mul (Z.to_nat n) buf a out o n
  = Done
      (with_elapsed_samples (elapsed_samples a + BYTES_TO_SAMPLES n)
         (audio_rptr_incby n a),
       write_bytes out o
         (ring_frames fixed_mul (Z.to_nat (BYTES_TO_SAMPLES n))
            (lgain a) (rgain a) buf (size (fifo_of a)) (rptr (fifo_of a)))).
Proof.
  intros Hr Hn Ho Asz Ar An.
  rewrite copy_loop_two_segments by assumption. cbv zeta.
  set (wrap := size (fifo_of a) - rptr (fifo_of a)).
  set (n1 := if wrap <? n then wrap else n).
  assert (An1 : aligned n1).
  { subst n1. destruct (wrap <? n); [now apply aligned_sub|exact An]. }
  assert (Hn1 : 0 <= n1 <= n).
  { subst n1 wrap. destruct (Z.ltb_spec (size (fifo_of a) - rptr (fifo_of a)) n); lia. }
  f_equal. f_equal.
  - f_equal. rewrite <- Z.add_assoc, <- BYTES_TO_SAMPLES_add by exact An1.
    do 2 f_equal. lia.
  - rewrite <- (two_segments_ring (lgain a) (rgain a) buf
                  (size (fifo_of a)) (rptr (fifo_of a)) n)
      by (assumption || lia).
    cbv zeta. fold wrap. fold n1.
    rewrite (write_bytes_app out o) by exact Ho.
    do 2 f_equal. rewrite length_gain_frames.
    pose proof (BYTES_TO_SAMPLES_aligned _ An1) as E.
    pose proof (BYTES_TO_SAMPLES_nonneg n1 ltac:(lia)). lia.
Qed.

End RenderProofs.

(** ** Ring buffer arithmetic *)

Lemma fifo_bytes_used_range f :
  0 < size f -> 0 <= fifo_bytes_used f < size f.
Proof. intros. unfold fifo_bytes_used. apply Z.mod_pos_bound. lia. Qed.

Lemma fifo_bytes_used_aligned f :
  aligned (size f) -> aligned (rptr f) -> aligned (wptr f) ->
  aligned (fifo_bytes_used f).
Proof.
  intros. unfold fifo_bytes_used. apply aligned_mod; [|assumption].
  now apply aligned_sub.
Qed.

(** Advancing the read index by [n] buffered bytes lowers the fill
    level by [n]. *)
Lemma fifo_bytes_used_incby f n :
  0 < size f -> 0 <= n <= fifo_bytes_used f ->
  fifo_bytes_used (fifo_rptr_incby f n) = fifo_bytes_used f - n.
Proof.
  intros Hsz Hn. pose proof (fifo_bytes_used_range f Hsz) as HU.
  unfold fifo_bytes_used, fifo_rptr_incby in *. cbn [rptr wptr size].
  rewrite Zminus_mod_idemp_r.
  replace (wptr f - (rptr f + n)) with ((wptr f - rptr f) - n) by lia.
  rewrite <- Zminus_mod_idemp_l. apply Z.mod_small. lia.
Qed.

Lemma skip_amount_spec bytes_used len skip_ahead :
  skip_amount bytes_used len skip_ahead
  = if (len <=? bytes_used) && (0 <? skip_ahead)
    then Z.min skip_ahead (bytes_used - len) else 0.
Proof.
  unfold skip_amount.
  destruct (Z.geb_spec bytes_used len), (Z.leb_spec len bytes_used); try lia;
  destruct (Z.gtb_spec skip_ahead 0), (Z.ltb_spec 0 skip_ahead); try lia;
    cbn [andb]; try reflexivity.
  destruct (Z.gtb_spec (bytes_used - len) skip_ahead); lia.
Qed.

Lemma skip_amount_range bytes_used len skip_ahead :
  0 <= skip_ahead ->
  0 <= skip_amount bytes_used len skip_ahead
  /\ skip_amount bytes_used len skip_ahead <= skip_ahead
  /\ skip_amount bytes_used len skip_ahead <= Z.max 0 (bytes_used - len).
Proof.
  intros Hs. rewrite skip_amount_spec.
  destruct (Z.leb_spec len bytes_used), (Z.ltb_spec 0 skip_ahead);
    cbn [andb]; lia.
Qed.

Lemma skip_amount_aligned bytes_used len skip_ahead :
  aligned bytes_used -> aligned len -> aligned skip_ahead ->
  aligned (skip_amount bytes_used len skip_ahead).
Proof.
  intros AU Al As. rewrite skip_amount_spec.
  destruct (_ && _); [|exact aligned_0].
  destruct (Z.min_spec skip_ahead (bytes_used - len)) as [[_ ->]|[_ ->]];
    [exact As|now apply aligned_sub].
Qed.

Lemma silence_bytes_range ms rate len :
  0 <= len -> 0 <= silence_bytes ms rate len <= len.
Proof.
  intros Hlen. unfold silence_bytes.
  match goal with |- context [SAMPLES_TO_BYTES ?x] =>
    pose proof (SAMPLES_TO_BYTES_range x) as Hr;
    destruct (Z.gtb_spec (SAMPLES_TO_BYTES x) len) end; lia.
Qed.

Lemma silence_bytes_aligned ms rate len :
  aligned len -> aligned (silence_bytes ms rate len).
Proof.
  intros Al. unfold silence_bytes.
  destruct (_ >? _); [exact Al|apply aligned_SAMPLES_TO_BYTES].
Qed.

(** ** The playing path of the callback *)

Section CallbackProofs.

Variable fixed_mul : Z -> Z -> Z.
Variable decode_sample_mix : list Z -> Z -> list Z.
Variable decode_check_start_point : decode_audio -> bool.

Lemma callback_play_spec rate buf F a out o len trace :
  fifo_ok (fifo_of a) buf -> 0 <= skip_ahead_bytes a -> frame_aligned a ->
  0 < len -> aligned len -> 0 <= o ->
  let U := fifo_bytes_used (fifo_of a) in
  let used := Z.min U len in
  let skip := skip_amount U len (skip_ahead_bytes a) in
  callback_play fixed_mul decode_sample_mix decode_check_start_point
    rate buf F a out o len trace
  = Done
      (unlock_mixin_effects decode_sample_mix F
         (if used =? 0
          then with_state (Z.lor (state a) DECODE_STATE_UNDERRUN) a
          else note_track_rate decode_check_start_point rate
                 (audio_consumed a (U <? len) skip used))
         (write_bytes (memset0 out (o + used) (len - used)) o
            (ring_frames fixed_mul (Z.to_nat (BYTES_TO_SAMPLES used))
               (lgain a) (rgain a) buf (size (fifo_of a))
               ((rptr (fifo_of a) + skip) mod size (fifo_of a))))
         trace).
Proof.
  intros (Hr & Hw & Hb) Hsa (Asz & Ar & Aw & Asa) Hlen Alen Ho U used skip.
  assert (HU : 0 <= U < size (fifo_of a))
    by (apply fifo_bytes_used_range; lia).
  assert (AU : aligned U) by now apply fifo_bytes_used_aligned.
  pose proof (skip_amount_range U len _ Hsa) as Hskip. fold skip in Hskip.
  assert (Askip : aligned skip) by now apply skip_amount_aligned.
  unfold callback_play. fold U. fold skip.
  replace (if U >? len then len else U) with used
    by (subst used; destruct (Z.gtb_spec U len); lia).
  destruct (Z.eqb_spec used 0) as [E0|Hused].
  - rewrite E0, Z.add_0_r, Z.sub_0_r.
    change (Z.to_nat (BYTES_TO_SAMPLES 0)) with 0%nat.
    cbn [ring_frames]. now rewrite write_bytes_nil.
  - assert (Aused : aligned used).
    { subst used. destruct (Z.min_spec U len) as [[_ ->]|[_ ->]]; assumption. }
    assert (Hflag : (used <? len) = (U <? len)).
    { subst used. destruct (Z.ltb_spec U len), (Z.ltb_spec (Z.min U len) len); lia. }
    rewrite Hflag.
    set (a1 := with_state
                 (if U <? len then Z.lor (state a) DECODE_STATE_UNDERRUN
                  else Z.land (state a) (to_u32 (Z.lnot DECODE_STATE_UNDERRUN)))
                 a).
    assert (Hpair :
      (if U <? len
       then (with_state (Z.lor (state a) DECODE_STATE_UNDERRUN) a,
             memset0 out (o + used) (len - used))
       else (with_state
               (Z.land (state a) (to_u32 (Z.lnot DECODE_STATE_UNDERRUN))) a,
             out)) = (a1, memset0 out (o + used) (len - used))).
    { subst a1. destruct (Z.ltb_spec U len) as [Hlt|Hge]; [reflexivity|].
      replace (len - used) with 0 by (subst used; lia).
      now rewrite memset0_nothing. }
    rewrite Hpair. set (out1 := memset0 out (o + used) (len - used)).
    rewrite (skip_ahead_spec a1 skip) by (subst a1; cbn; (assumption || lia)).
    set (a2 := with_elapsed_samples _ _).
    assert (Hr2 : 0 <= rptr (fifo_of a2) < size (fifo_of a2)).
    { subst a2 a1. cbn. apply Z.mod_pos_bound. lia. }
    assert (Ar2 : aligned (rptr (fifo_of a2))).
    { subst a2 a1. cbn. apply aligned_mod; [now apply aligned_add|assumption]. }
    rewrite (copy_loop_aligned fixed_mul buf a2 out1 o used);
      [|exact Hr2|subst a2 a1; cbn; subst used; lia|exact Ho
       |subst a2 a1; exact Asz|exact Ar2|exact Aused].
    cbn [obind]. clear Hr2 Ar2 Hpair.
    assert (E3 : with_elapsed_samples
                   (elapsed_samples a2 + BYTES_TO_SAMPLES used)
                   (audio_rptr_incby used a2)
                 = audio_consumed a (U <? len) skip used).
    { subst a2 a1. audio_simpl.
      rewrite Zplus_mod_idemp_l, <- !Z.add_assoc.
      rewrite <- (BYTES_TO_SAMPLES_add skip used) by exact Askip.
      reflexivity. }
    rewrite E3. subst a2 a1. reflexivity.
Qed.

(** Without any alignment assumption the same path still returns,
    and leaves the same state up to the value of the elapsed-sample
    counter. *)
Lemma skip_ahead_gen a skip_bytes :
  0 <= rptr (fifo_of a) < size (fifo_of a) -> 0 <= skip_bytes ->
  exists e,
    skip_ahead skip_bytes a
    = with_elapsed_samples e
        (with_skip_ahead_bytes (skip_ahead_bytes a - skip_bytes)
           (audio_rptr_incby skip_bytes a)).
Proof.
  intros Hr Hs. unfold skip_ahead.
  destruct a as [st [r w sz] lg rg ms sa el tr ssr mr].
  audio_simpl. audio_simpl_in Hr.
  destruct (Z.eqb_spec skip_bytes 0) as [->|Hnz].
  - exists el.
    rewrite Z.add_0_r, Z.mod_small, Z.sub_0_r by lia. reflexivity.
  - destruct (Z.ltb_spec (sz - r) skip_bytes) as [Hw|Hw].
    + eexists. rewrite Zplus_mod_idemp_l.
      f_equal; [f_equal; f_equal; lia|lia].
    + eexists. reflexivity.
Qed.

Lemma callback_play_gen rate buf F a out o len trace :
  fifo_ok (fifo_of a) buf -> 0 <= skip_ahead_bytes a ->
  0 < len -> 0 <= o ->
  let U := fifo_bytes_used (fifo_of a) in
  let used := Z.min U len in
  let skip := skip_amount U len (skip_ahead_bytes a) in
  exists e,
    callback_play fixed_mul decode_sample_mix decode_check_start_point
      rate buf F a out o len trace
    = Done
        (unlock_mixin_effects decode_sample_mix F
           (if used =? 0
            then with_state (Z.lor (state a) DECODE_STATE_UNDERRUN) a
            else note_track_rate decode_check_start_point rate
                   (with_elapsed_samples e
                      (audio_consumed a (U <? len) skip used)))
           (copied_segments fixed_mul buf
              (memset0 out (o + used) (len - used)) a o used skip)
           trace).
Proof.
  intros (Hr & Hw & Hb) Hsa Hlen Ho U used skip.
  assert (HU : 0 <= U < size (fifo_of a))
    by (apply fifo_bytes_used_range; lia).
  pose proof (skip_amount_range U len _ Hsa) as Hskip. fold skip in Hskip.
  unfold callback_play. fold U. fold skip.
  replace (if U >? len then len else U) with used
    by (subst used; destruct (Z.gtb_spec U len); lia).
  destruct (Z.eqb_spec used 0) as [E0|Hused].
  - exists 0. do 2 f_equal. unfold copied_segments. rewrite E0.
    pose proof (Z.mod_pos_bound (rptr (fifo_of a) + skip) (size (fifo_of a))
                  ltac:(lia)) as Hr2.
    destruct (Z.ltb_spec
                (size (fifo_of a)
                 - (rptr (fifo_of a) + skip) mod size (fifo_of a)) 0);
      [lia|].
    rewrite Z.sub_diag. change (Z.to_nat (BYTES_TO_SAMPLES 0)) with 0%nat.
    cbn [gain_frames]. rewrite !write_bytes_nil, Z.add_0_r, Z.sub_0_r.
    reflexivity.
  - assert (Hflag : (used <? len) = (U <? len)).
    { subst used. destruct (Z.ltb_spec U len), (Z.ltb_spec (Z.min U len) len); lia. }
    rewrite Hflag.
    set (a1 := with_state
                 (if U <? len then Z.lor (state a) DECODE_STATE_UNDERRUN
                  else Z.land (state a) (to_u32 (Z.lnot DECODE_STATE_UNDERRUN)))
                 a).
    assert (Hpair :
      (if U <? len
       then (with_state (Z.lor (state a) DECODE_STATE_UNDERRUN) a,
             memset0 out (o + used) (len - used))
       else (with_state
               (Z.land (state a) (to_u32 (Z.lnot DECODE_STATE_UNDERRUN))) a,
             out)) = (a1, memset0 out (o + used) (len - used))).
    { subst a1. destruct (Z.ltb_spec U len) as [Hlt|Hge]; [reflexivity|].
      replace (len - used) with 0 by (subst used; lia).
      now rewrite memset0_nothing. }
    rewrite Hpair. set (out1 := memset0 out (o + used) (len - used)).
    destruct (skip_ahead_gen a1 skip) as (e1 & ->);
      [subst a1; cbn; lia|lia|].
    set (a2 := with_elapsed_samples e1 _).
    rewrite (copy_loop_two_segments fixed_mul buf a2 out1 o used);
      [|subst a2 a1; cbn; apply Z.mod_pos_bound; lia
       |subst a2 a1; cbn; subst used; lia|exact Ho].
    cbn [obind]. clear Hpair.
    assert (E3 : forall e,
      with_elapsed_samples e (audio_rptr_incby used a2)
      = with_elapsed_samples e (audio_consumed a (U <? len) skip used)).
    { intros e. subst a2 a1. audio_simpl.
      rewrite Zplus_mod_idemp_l, Z.add_assoc. reflexivity. }
    rewrite E3. eexists. reflexivity.
Qed.

(** The output buffer after the silence, the copy and the underrun
    fill: three blocks. *)
Lemma play_output (out : list Z) add used len' frames :
  0 <= add -> 0 <= used <= len' ->
  Z.of_nat (length out) = add + len' ->
  Z.of_nat (length frames) = used ->
  write_bytes (memset0 (memset0 out 0 add) (add + used) (len' - used))
    add frames
  = replicate (Z.to_nat add) 0 ++ frames
    ++ replicate (Z.to_nat (len' - used)) 0.
Proof.
  intros Hadd Hused Hout Hfr. unfold memset0.
  replace add with (Z.of_nat (Z.to_nat add)) at 2 3 by lia.
  replace (Z.of_nat (Z.to_nat add) + used)
    with (Z.of_nat (Z.to_nat add + Z.to_nat used)) by lia.
  apply write_three; lia.
Qed.

Lemma len_after_silence_range rate a F :
  0 <= F -> 2 * F * sizeof_sample_t < 2 ^ SIZE_BITS ->
  0 <= len_after_silence rate a F <= 8 * F
  /\ aligned (len_after_silence rate a F).
Proof.
  intros HF HFmax. unfold len_after_silence.
  rewrite SAMPLES_TO_BYTES_small by assumption.
  assert (Alen : aligned (8 * F)) by (apply aligned_iff; now exists F).
  destruct (_ =? 0); [split; [lia|exact Alen]|].
  pose proof (silence_bytes_range (to_int (add_silence_ms a)) rate (8 * F)
                ltac:(lia)).
  split; [lia|]. apply aligned_sub; [exact Alen|].
  now apply silence_bytes_aligned.
Qed.

(** With the running flag set the callback inserts the pending
    silence and then either is done or plays from the fifo. *)
Lemma callback_running_unfold rate buf a out F :
  callback_pre rate buf a out F ->
  flag_set (state a) DECODE_STATE_RUNNING = true ->
  let len := 8 * F in
  let len' := len_after_silence rate a F in
  callback fixed_mul decode_sample_mix decode_check_start_point
    rate buf a out F
  = if len' =? 0
    then Done (unlock_mixin_effects decode_sample_mix F a
                 (memset0 out 0 (len - len')) [EvLock])
    else callback_play fixed_mul decode_sample_mix decode_check_start_point
           rate buf F a (memset0 out 0 (len - len')) (len - len') len'
           [EvLock].
Proof.
  intros (Hfifo & Hsa & HF & HFmax & Hout & Hrate) Hrun len len'.
  assert (Elen : SAMPLES_TO_BYTES F = len)
    by (apply SAMPLES_TO_BYTES_small; [lia|exact HFmax]).
  unfold callback. rewrite Hrun. cbn [negb]. rewrite Elen.
  subst len'. unfold len_after_silence. rewrite Elen.
  destruct (Z.eqb_spec (to_int (add_silence_ms a)) 0) as [Ems|Ems].
  - destruct (Z.eqb_spec len 0) as [?|_]; [lia|].
    now rewrite Z.sub_diag, memset0_nothing.
  - destruct (Z.eqb_spec rate 0) as [?|_]; [lia|].
    cbv zeta. now rewrite Z.sub_sub_distr, Z.sub_diag, Z.add_0_l.
Qed.

(** Every run with the running flag set returns, releases the lock
    before mixing, and leaves the state below; no alignment of the
    fifo is assumed, and the elapsed-sample counter is left open. *)
Lemma callback_gen rate buf a out F :
  callback_pre rate buf a out F ->
  flag_set (state a) DECODE_STATE_RUNNING = true ->
  let len' := len_after_silence rate a F in
  let U := fifo_bytes_used (fifo_of a) in
  let used := Z.min U len' in
  let skip := skip_amount U len' (skip_ahead_bytes a) in
  exists e,
    callback fixed_mul decode_sample_mix decode_check_start_point
      rate buf a out F
    = Done
        (mk_result
           (if len' =? 0 then a
            else if used =? 0
            then with_state (Z.lor (state a) DECODE_STATE_UNDERRUN) a
            else note_track_rate decode_check_start_point rate
                   (with_elapsed_samples e
                      (audio_consumed a (U <? len') skip used)))
           (decode_sample_mix
              (copied_segments fixed_mul buf
                 (memset0 (memset0 out 0 (8 * F - len'))
                    (8 * F - len' + used) (len' - used))
                 a (8 * F - len') used skip)
              (8 * F))
           [EvLock; EvUnlock; EvMix (8 * F)]
           paContinue).
Proof.
  intros Hpre Hrun len' U used skip.
  rewrite callback_running_unfold by assumption.
  destruct Hpre as (Hfifo & Hsa & HF & HFmax & Hout & Hrate).
  pose proof (len_after_silence_range rate a F ltac:(lia) HFmax) as (Hlen' & _).
  fold len' in Hlen' |- *.
  assert (Elen : SAMPLES_TO_BYTES F = 8 * F)
    by (apply SAMPLES_TO_BYTES_small; [lia|exact HFmax]).
  destruct (Z.eqb_spec len' 0) as [E0|Hpos].
  - exists 0. unfold unlock_mixin_effects, mixin_effects.
    rewrite Elen. cbn [app]. do 2 f_equal. f_equal.
    destruct Hfifo as (Hr & _).
    assert (HU : 0 <= U < size (fifo_of a))
      by (apply fifo_bytes_used_range; lia).
    assert (Eu : used = 0) by (subst used; lia).
    rewrite Eu, E0. unfold copied_segments.
    pose proof (Z.mod_pos_bound (rptr (fifo_of a) + skip) (size (fifo_of a))
                  ltac:(lia)) as Hr2.
    destruct (Z.ltb_spec
                (size (fifo_of a)
                 - (rptr (fifo_of a) + skip) mod size (fifo_of a)) 0);
      [lia|].
    rewrite !Z.sub_0_r. change (Z.to_nat (BYTES_TO_SAMPLES 0)) with 0%nat.
    cbn [gain_frames]. now rewrite !write_bytes_nil, memset0_nothing.
  - destruct (callback_play_gen rate buf F a
                (memset0 out 0 (8 * F - len')) (8 * F - len') len' [EvLock])
      as (e & ->); try assumption; try lia.
    fold U. fold used. fold skip.
    exists e. unfold unlock_mixin_effects, mixin_effects.
    rewrite Elen. reflexivity.
Qed.

Lemma callback_running_spec rate buf a out F :
  callback_pre rate buf a out F -> frame_aligned a ->
  flag_set (state a) DECODE_STATE_RUNNING = true ->
  let len := 8 * F in
  let len' := len_after_silence rate a F in
  let U := fifo_bytes_used (fifo_of a) in
  let used := Z.min U len' in
  let skip := skip_amount U len' (skip_ahead_bytes a) in
  callback fixed_mul decode_sample_mix decode_check_start_point
    rate buf a out F
  = Done
      (mk_result
         (if len' =? 0 then a
          else if used =? 0
          then with_state (Z.lor (state a) DECODE_STATE_UNDERRUN) a
          else note_track_rate decode_check_start_point rate
                 (audio_consumed a (U <? len') skip used))
         (decode_sample_mix
            (replicate (Z.to_nat (len - len')) 0
             ++ ring_frames fixed_mul (Z.to_nat (BYTES_TO_SAMPLES used))
                  (lgain a) (rgain a) buf (size (fifo_of a))
                  ((rptr (fifo_of a) + skip) mod size (fifo_of a))
             ++ replicate (Z.to_nat (len' - used)) 0)
            len)
         [EvLock; EvUnlock; EvMix len]
         paContinue).
Proof.
  intros Hpre Hal Hrun len len' U used skip.
  pose proof Hpre as (Hfifo & Hsa & HF & HFmax & Hout & Hrate).
  assert (Elen : SAMPLES_TO_BYTES F = len)
    by (apply SAMPLES_TO_BYTES_small; [lia|exact HFmax]).
  unfold sizeof_sample_t in Hout.
  assert (Hlen : 0 < len) by (subst len; lia).
  assert (Alen : aligned len) by (rewrite <- Elen; apply aligned_SAMPLES_TO_BYTES).
  assert (HU : 0 <= U < size (fifo_of a)).
  { apply fifo_bytes_used_range. destruct Hfifo as (? & _). lia. }
  pose proof (len_after_silence_range rate a F ltac:(lia) HFmax) as Hlen'.
  fold len' in Hlen'. fold len in Hlen'.
  destruct Hlen' as (Hlen' & Alen').
  assert (Hused : 0 <= used <= len') by (subst used; lia).
  assert (Aused : aligned used).
  { subst used. destruct (Z.min_spec U len') as [[_ ->]|[_ ->]];
      [|exact Alen'].
    destruct Hal as (? & ? & ? & _). now apply fifo_bytes_used_aligned. }
  assert (Hframes : forall off,
    Z.of_nat (length (ring_frames fixed_mul (Z.to_nat (BYTES_TO_SAMPLES used))
                        (lgain a) (rgain a) buf (size (fifo_of a)) off))
    = used).
  { intros off. rewrite length_ring_frames.
    pose proof (BYTES_TO_SAMPLES_aligned _ Aused).
    pose proof (BYTES_TO_SAMPLES_nonneg used ltac:(lia)). lia. }
  rewrite callback_running_unfold by assumption.
  fold len. fold len'.
  destruct (Z.eqb_spec len' 0) as [E0|Hpos].
  - unfold unlock_mixin_effects, mixin_effects. rewrite Elen.
    cbn [app]. do 2 f_equal.
    replace used with 0 by lia. rewrite E0, Z.sub_0_r.
    change (Z.to_nat (BYTES_TO_SAMPLES 0)) with 0%nat.
    cbn [ring_frames Z.to_nat replicate Z.sub app]. rewrite app_nil_r.
    f_equal. apply memset0_all. lia.
  - rewrite callback_play_spec; try assumption; try lia.
    fold U. fold used. fold skip.
    unfold unlock_mixin_effects, mixin_effects. rewrite Elen.
    cbn [app]. do 2 f_equal.
    f_equal. apply play_output; try lia. apply Hframes.
Qed.

End CallbackProofs.

(** ** Fields left alone by the sample-rate check *)

Lemma note_track_rate_state check rate a :
  state (note_track_rate check rate a) = state a.
Proof. unfold note_track_rate. now destruct (_ && _). Qed.

Lemma note_track_rate_fifo check rate a :
  fifo_of (note_track_rate check rate a) = fifo_of a.
Proof. unfold note_track_rate. now destruct (_ && _). Qed.

Lemma note_track_rate_skip check rate a :
  skip_ahead_bytes (note_track_rate check rate a) = skip_ahead_bytes a.
Proof. unfold note_track_rate. now destruct (_ && _). Qed.

Lemma note_track_rate_elapsed check rate a :
  elapsed_samples (note_track_rate check rate a) = elapsed_samples a.
Proof. unfold note_track_rate. now destruct (_ && _). Qed.

Lemma note_track_rate_silence check rate a :
  add_silence_ms (note_track_rate check rate a) = add_silence_ms a.
Proof. unfold note_track_rate. now destruct (_ && _). Qed.

Lemma len_after_silence_none rate a F :
  add_silence_ms a = 0 -> len_after_silence rate a F = SAMPLES_TO_BYTES F.
Proof. intros E. unfold len_after_silence. now rewrite E. Qed.

(** * Properties of the callback and of the stream life cycle *)

Section Properties.

Variable fixed_mul : Z -> Z -> Z.
Variable decode_sample_mix : list Z -> Z -> list Z.
Variable decode_check_start_point : decode_audio -> bool.

Local Abbreviation run_callback :=
  (callback fixed_mul decode_sample_mix decode_check_start_point).

(** C1.  With the running flag set and no silence pending, a request
    for [F] frames against [U] buffered bytes yields, before the
    effects are mixed in: [F] gain-scaled frames and a cleared
    underrun flag when [U] covers the request; the buffered frames
    followed by zeroes and a set underrun flag when [0 < U] falls
    short; zeroes only and a set underrun flag when [U = 0].  The
    fifo is assumed to hold whole frames. *)
Theorem callback_output_by_fill_level rate buf a out F :
  callback_pre rate buf a out F -> frame_aligned a ->
  flag_set (state a) DECODE_STATE_RUNNING = true ->
  add_silence_ms a = 0 ->
  let len := SAMPLES_TO_BYTES F in
  let U := fifo_bytes_used (fifo_of a) in
  exists r,
    run_callback rate buf a out F = Done r
    /\ (len <= U ->
        res_output r
        = decode_sample_mix
            (ring_frames fixed_mul (Z.to_nat F) (lgain a) (rgain a) buf
               (size (fifo_of a))
               ((rptr (fifo_of a) + skip_amount U len (skip_ahead_bytes a))
                mod size (fifo_of a)))
            len
        /\ flag_set (state (res_audio r)) DECODE_STATE_UNDERRUN = false)
    /\ (0 < U < len ->
        res_output r
        = decode_sample_mix
            (ring_frames fixed_mul (Z.to_nat (BYTES_TO_SAMPLES U))
               (lgain a) (rgain a) buf (size (fifo_of a)) (rptr (fifo_of a))
             ++ replicate (Z.to_nat (len - U)) 0)
            len
        /\ flag_set (state (res_audio r)) DECODE_STATE_UNDERRUN = true)
    /\ (U = 0 ->
        res_output r = decode_sample_mix (replicate (Z.to_nat len) 0) len
        /\ flag_set (state (res_audio r)) DECODE_STATE_UNDERRUN = true).
Proof.
  intros Hpre Hal Hrun Hms len U.
  rewrite callback_running_spec by assumption. cbv zeta.
  rewrite (len_after_silence_none rate a F Hms). fold len. fold U.
  destruct Hpre as ((Hr & _) & Hsa & HF & HFmax & _).
  assert (Elen : len = 8 * F)
    by (apply SAMPLES_TO_BYTES_small; [lia|exact HFmax]).
  rewrite <- Elen, Z.sub_diag.
  destruct (Z.eqb_spec len 0) as [?|_]; [lia|].
  eexists. split; [reflexivity|]. cbn [res_output res_audio replicate app Z.to_nat].
  split; [|split].
  - intros HU. rewrite Z.min_r by lia.
    destruct (Z.eqb_spec len 0) as [?|_]; [lia|].
    rewrite Z.sub_diag. cbn [Z.to_nat replicate]. rewrite app_nil_r.
    replace (BYTES_TO_SAMPLES len) with F.
    2:{ rewrite Elen. unfold BYTES_TO_SAMPLES, sizeof_sample_t.
        change (2 * 4) with 8. now rewrite Z.mul_comm, Z.div_mul. }
    split; [reflexivity|].
    rewrite note_track_rate_state. unfold audio_consumed. cbn [state].
    destruct (Z.ltb_spec U len) as [?|_]; [lia|].
    apply underrun_after_clear.
  - intros HU. rewrite Z.min_l by lia.
    destruct (Z.eqb_spec U 0) as [?|_]; [lia|].
    assert (Eskip : skip_amount U len (skip_ahead_bytes a) = 0).
    { rewrite skip_amount_spec. destruct (Z.leb_spec len U); [lia|reflexivity]. }
    rewrite Eskip, Z.add_0_r, (Z.mod_small (rptr (fifo_of a))) by lia.
    split; [reflexivity|].
    rewrite note_track_rate_state. unfold audio_consumed. cbn [state].
    destruct (Z.ltb_spec U len) as [_|?]; [|lia].
    apply underrun_after_set.
  - intros HU. rewrite HU, Z.min_l by lia.
    cbn [Z.eqb]. change (Z.to_nat (BYTES_TO_SAMPLES 0)) with 0%nat.
    cbn [ring_frames app]. rewrite Z.sub_0_r.
    split; [reflexivity|]. cbn [with_state state].
    apply underrun_after_set.
Qed.

(** When the fifo holds whole frames, the two segments read as one
    run around the ring: frame [k] of the copied block is the fifo
    frame at [(rptr + skip + 8 k) mod size]. *)
Lemma callback_gain_around_ring rate buf a out F :
  callback_pre rate buf a out F -> frame_aligned a ->
  flag_set (state a) DECODE_STATE_RUNNING = true ->
  let len := SAMPLES_TO_BYTES F in
  let len' := len_after_silence rate a F in
  let U := fifo_bytes_used (fifo_of a) in
  let used := Z.min U len' in
  let skip := skip_amount U len' (skip_ahead_bytes a) in
  exists r pre,
    run_callback rate buf a out F = Done r
    /\ res_output r = decode_sample_mix pre len
    /\ forall k, 0 <= k < BYTES_TO_SAMPLES used ->
         let src := (rptr (fifo_of a) + skip + 8 * k) mod size (fifo_of a) in
         let dst := (len - len') + 8 * k in
         load_sample pre dst
         = to_int (fixed_mul (lgain a) (load_sample buf src))
         /\ load_sample pre (dst + sizeof_sample_t)
           = to_int (fixed_mul (rgain a)
                       (load_sample buf (src + sizeof_sample_t))).
Proof.
  intros Hpre Hal Hrun len len' U used skip.
  rewrite callback_running_spec by assumption. cbv zeta.
  fold len'. fold U. fold used. fold skip.
  destruct Hpre as ((Hr & _) & Hsa & HF & HFmax & _).
  assert (Elen : len = 8 * F)
    by (apply SAMPLES_TO_BYTES_small; [lia|exact HFmax]).
  rewrite <- Elen.
  pose proof (len_after_silence_range rate a F ltac:(lia) HFmax) as (Hlen' & _).
  fold len' in Hlen'. rewrite <- Elen in Hlen'.
  eexists. eexists. split; [reflexivity|]. split; [reflexivity|].
  intros k Hk. cbv zeta.
  set (zeros := replicate (Z.to_nat (len - len')) 0).
  assert (Hz : Z.of_nat (length zeros) = len - len')
    by (subst zeros; rewrite length_replicate; lia).
  rewrite <- Hz. unfold sizeof_sample_t.
  rewrite <- !Z.add_assoc, !load_sample_app_r by lia.
  set (frames := ring_frames _ _ _ _ _ _ _).
  assert (Hfr : Z.of_nat (length frames) = 8 * Z.of_nat (Z.to_nat (BYTES_TO_SAMPLES used))).
  { subst frames. rewrite length_ring_frames. lia. }
  rewrite !load_sample_app_l by lia.
  destruct (load_ring_frames fixed_mul (Z.to_nat (BYTES_TO_SAMPLES used))
              (lgain a) (rgain a) buf (size (fifo_of a))
              ((rptr (fifo_of a) + skip) mod size (fifo_of a)) (Z.to_nat k))
    as [El Er]; [apply Z.mod_pos_bound; lia|lia|].
  cbv zeta in El, Er. fold frames in El, Er.
  rewrite Zplus_mod_idemp_l, Z2Nat.id in El, Er by lia.
  rewrite !Z.add_assoc. split; assumption.
Qed.

(** C5.  Every stereo frame the callback copies carries the left
    sample times the left gain and the right sample times the right
    gain, through the one [fixed_mul], on either side of the wrap: the
    copy is made of a segment read from the read index up to the wrap
    and a segment read from index 0, and frame [k] of either segment
    is the fifo frame [k] of that segment scaled. *)
Theorem callback_gain_per_frame rate buf a out F :
  callback_pre rate buf a out F ->
  flag_set (state a) DECODE_STATE_RUNNING = true ->
  let len := SAMPLES_TO_BYTES F in
  let len' := len_after_silence rate a F in
  let U := fifo_bytes_used (fifo_of a) in
  let used := Z.min U len' in
  let skip := skip_amount U len' (skip_ahead_bytes a) in
  let r2 := (rptr (fifo_of a) + skip) mod size (fifo_of a) in
  let wrap := size (fifo_of a) - r2 in
  let n1 := Z.min wrap used in
  let n2 := used - n1 in
  exists r pre,
    run_callback rate buf a out F = Done r
    /\ res_output r = decode_sample_mix pre len
    /\ (forall k, 0 <= k < BYTES_TO_SAMPLES n1 ->
        let src := r2 + 8 * k in
        let dst := (len - len') + 8 * k in
        load_sample pre dst
        = to_int (fixed_mul (lgain a) (load_sample buf src))
        /\ load_sample pre (dst + sizeof_sample_t)
          = to_int (fixed_mul (rgain a)
                      (load_sample buf (src + sizeof_sample_t))))
    /\ (forall k, 0 <= k < BYTES_TO_SAMPLES n2 ->
        let src := 8 * k in
        let dst := (len - len') + n1 + 8 * k in
        load_sample pre dst
        = to_int (fixed_mul (lgain a) (load_sample buf src))
        /\ load_sample pre (dst + sizeof_sample_t)
          = to_int (fixed_mul (rgain a)
                      (load_sample buf (src + sizeof_sample_t)))).
Proof.
  intros Hpre Hrun len len' U used skip r2 wrap n1 n2.
  destruct (callback_gen fixed_mul decode_sample_mix decode_check_start_point
              rate buf a out F Hpre Hrun) as (e & ->).
  fold len'. fold U. fold used. fold skip.
  destruct Hpre as ((Hr & _) & Hsa & HF & HFmax & Hout & _).
  assert (Elen : len = 8 * F)
    by (apply SAMPLES_TO_BYTES_small; [lia|exact HFmax]).
  rewrite <- Elen.
  pose proof (len_after_silence_range rate a F ltac:(lia) HFmax) as (Hlen' & _).
  fold len' in Hlen'. rewrite <- Elen in Hlen'.
  assert (HU : 0 <= U < size (fifo_of a))
    by (apply fifo_bytes_used_range; lia).
  assert (Hused : 0 <= used <= len') by (subst used; lia).
  assert (Hr2 : 0 <= r2 < size (fifo_of a))
    by (apply Z.mod_pos_bound; lia).
  assert (Hn1 : 0 <= n1 <= used) by (subst n1 wrap; lia).
  eexists. eexists. split; [reflexivity|]. split; [reflexivity|].
  unfold copied_segments. fold r2. fold wrap.
  replace (if wrap <? used then wrap else used) with n1
    by (subst n1; destruct (Z.ltb_spec wrap used); lia).
  fold n2.
  set (mem := memset0 _ _ _).
  assert (Hmem : Z.of_nat (length mem) = len).
  { subst mem. unfold memset0. rewrite !length_write_bytes.
    unfold sizeof_sample_t in Hout. lia. }
  set (seg1 := gain_frames fixed_mul (Z.to_nat (BYTES_TO_SAMPLES n1)) _ _ _ _).
  set (seg2 := gain_frames fixed_mul (Z.to_nat (BYTES_TO_SAMPLES n2)) _ _ _ _).
  assert (Hb1 : 0 <= 8 * BYTES_TO_SAMPLES n1 <= n1).
  { unfold BYTES_TO_SAMPLES, sizeof_sample_t. change (2 * 4) with 8.
    pose proof (Z.mul_div_le n1 8 ltac:(lia)).
    pose proof (Z.div_pos n1 8 ltac:(lia) ltac:(lia)). lia. }
  assert (Hb2 : 0 <= 8 * BYTES_TO_SAMPLES n2 <= n2).
  { unfold BYTES_TO_SAMPLES, sizeof_sample_t. change (2 * 4) with 8.
    pose proof (Z.mul_div_le n2 8 ltac:(lia)).
    pose proof (Z.div_pos n2 8 ltac:(subst n2; lia) ltac:(lia)). lia. }
  assert (Hs1 : Z.of_nat (length seg1) = 8 * BYTES_TO_SAMPLES n1)
    by (subst seg1; rewrite length_gain_frames; lia).
  assert (Hs2 : Z.of_nat (length seg2) = 8 * BYTES_TO_SAMPLES n2)
    by (subst seg2; rewrite length_gain_frames; lia).
  unfold sizeof_sample_t. split.
  - intros k Hk. cbv zeta.
    rewrite !(load_write_outside _ (len - len' + n1)) by lia.
    rewrite !load_write_inside by lia.
    destruct (load_gain_frames fixed_mul (Z.to_nat (BYTES_TO_SAMPLES n1))
                (lgain a) (rgain a) buf r2 (Z.to_nat k)) as [El Er]; [lia|].
    cbv zeta in El, Er. fold seg1 in El, Er.
    rewrite Z2Nat.id in El, Er by lia.
    split.
    + rewrite <- El. f_equal. lia.
    + rewrite <- Er. f_equal. lia.
  - intros k Hk. cbv zeta.
    rewrite !load_write_inside
      by (rewrite ?length_write_bytes; subst n2; lia).
    destruct (load_gain_frames fixed_mul (Z.to_nat (BYTES_TO_SAMPLES n2))
                (lgain a) (rgain a) buf 0 (Z.to_nat k)) as [El Er]; [lia|].
    cbv zeta in El, Er. fold seg2 in El, Er.
    rewrite Z2Nat.id, Z.add_0_l in El, Er by lia.
    split.
    + rewrite <- El. f_equal. lia.
    + rewrite <- Er. f_equal. lia.
Qed.

(** C6.  Across one callback the elapsed-sample counter rises by
    exactly the frames of the bytes skipped plus the bytes copied,
    and these are the bytes that left the fifo; it does not move when
    the running flag is clear, when silence fills the whole request,
    or when nothing is buffered.  The fifo is assumed to hold whole
    frames. *)
Theorem callback_elapsed_samples rate buf a out F :
  callback_pre rate buf a out F -> frame_aligned a ->
  let running := flag_set (state a) DECODE_STATE_RUNNING in
  let len' := len_after_silence rate a F in
  let U := fifo_bytes_used (fifo_of a) in
  let copied := if running then Z.min U len' else 0 in
  exists r,
    run_callback rate buf a out F = Done r
    /\ let skipped := skip_ahead_bytes a - skip_ahead_bytes (res_audio r) in
       elapsed_samples (res_audio r)
       = elapsed_samples a + BYTES_TO_SAMPLES (skipped + copied)
       /\ fifo_bytes_used (fifo_of (res_audio r)) = U - (skipped + copied)
       /\ 0 <= skipped /\ 0 <= copied
       /\ (running = false \/ len' = 0 \/ U = 0 ->
           skipped = 0 /\ copied = 0
           /\ elapsed_samples (res_audio r) = elapsed_samples a)
       /\ exists n_before n_after,
           res_output r
           = decode_sample_mix
               (replicate n_before 0
                ++ ring_frames fixed_mul (Z.to_nat (BYTES_TO_SAMPLES copied))
                     (lgain a) (rgain a) buf (size (fifo_of a))
                     ((rptr (fifo_of a) + skipped) mod size (fifo_of a))
                ++ replicate n_after 0)
               (SAMPLES_TO_BYTES F).
Proof.
  intros Hpre Hal running len' U copied.
  pose proof Hpre as ((Hr & _) & Hsa & HF & HFmax & Hout & _).
  assert (Elen : SAMPLES_TO_BYTES F = 8 * F)
    by (apply SAMPLES_TO_BYTES_small; [lia|exact HFmax]).
  destruct running eqn:Hrun; subst running.
  - rewrite callback_running_spec by assumption. cbv zeta.
    fold len'. fold U. subst copied. rewrite Elen.
    pose proof (len_after_silence_range rate a F ltac:(lia) HFmax) as (Hlen' & _).
    fold len' in Hlen'.
    assert (HU : 0 <= U < size (fifo_of a))
      by (apply fifo_bytes_used_range; lia).
    pose proof (skip_amount_range U len' _ Hsa) as Hskip.
    eexists. split; [reflexivity|]. cbn [res_audio res_output].
    destruct (Z.eqb_spec len' 0) as [E0|Hpos].
    { rewrite E0, Z.min_r, Z.sub_diag by lia.
      change (BYTES_TO_SAMPLES (0 + 0)) with 0. fold U.
      change (Z.to_nat (BYTES_TO_SAMPLES 0)) with 0%nat. cbn [ring_frames].
      repeat split; try lia. eexists. eexists. reflexivity. }
    destruct (Z.eqb_spec (Z.min U len') 0) as [E0|Hused].
    { rewrite E0. cbn [with_state skip_ahead_bytes elapsed_samples fifo_of].
      rewrite Z.sub_diag. change (BYTES_TO_SAMPLES (0 + 0)) with 0. fold U.
      change (Z.to_nat (BYTES_TO_SAMPLES 0)) with 0%nat. cbn [ring_frames].
      repeat split; try lia. eexists. eexists. reflexivity. }
    rewrite note_track_rate_elapsed, note_track_rate_skip,
      note_track_rate_fifo.
    unfold audio_consumed.
    cbn [skip_ahead_bytes elapsed_samples fifo_of].
    replace (skip_ahead_bytes a
             - (skip_ahead_bytes a - skip_amount U len' (skip_ahead_bytes a)))
      with (skip_amount U len' (skip_ahead_bytes a)) by lia.
    rewrite fifo_bytes_used_incby by (fold U; lia). fold U.
    repeat split; try lia. eexists. eexists. reflexivity.
  - unfold callback. rewrite Hrun. cbn [negb]. unfold mixin_effects.
    rewrite Elen, memset0_all by (unfold sizeof_sample_t in Hout; lia).
    subst copied. eexists. split; [reflexivity|].
    cbn [res_audio res_output].
    rewrite Z.sub_diag. change (BYTES_TO_SAMPLES (0 + 0)) with 0. fold U.
    change (Z.to_nat (BYTES_TO_SAMPLES 0)) with 0%nat. cbn [ring_frames].
    repeat split; try lia.
    exists (Z.to_nat (8 * F)), 0%nat.
    cbn [replicate app]. now rewrite app_nil_r.
Qed.

(** C4.  The skip of one callback is min(pending skip, buffered bytes
    minus remaining output length), taken only when the skip counter
    is positive and the buffer covers the remaining length; what the
    callback actually skips is therefore never more than the surplus,
    the fifo never loses more than it held, and whether the underrun
    flag ends up set depends on the fill level alone. *)
Theorem skip_never_starves rate buf a out F :
  callback_pre rate buf a out F ->
  flag_set (state a) DECODE_STATE_RUNNING = true ->
  let len' := len_after_silence rate a F in
  let U := fifo_bytes_used (fifo_of a) in
  let skip := skip_amount U len' (skip_ahead_bytes a) in
  skip = (if (len' <=? U) && (0 <? skip_ahead_bytes a)
          then Z.min (skip_ahead_bytes a) (U - len') else 0)
  /\ (skip <> 0 -> 0 < skip_ahead_bytes a /\ len' <= U)
  /\ 0 <= skip <= Z.max 0 (U - len')
  /\ exists r,
       run_callback rate buf a out F = Done r
       /\ let skipped := skip_ahead_bytes a - skip_ahead_bytes (res_audio r) in
          skipped = (if len' =? 0 then 0 else skip)
          /\ fifo_bytes_used (fifo_of (res_audio r))
             = U - skipped - (if len' =? 0 then 0 else Z.min U len')
          /\ 0 <= fifo_bytes_used (fifo_of (res_audio r))
          /\ (0 < len' ->
              flag_set (state (res_audio r)) DECODE_STATE_UNDERRUN
              = (U <? len')).
Proof.
  intros Hpre Hrun len' U skip.
  pose proof Hpre as ((Hr & _) & Hsa & HF & HFmax & _).
  pose proof (len_after_silence_range rate a F ltac:(lia) HFmax) as (Hlen' & _).
  fold len' in Hlen'.
  assert (HU : 0 <= U < size (fifo_of a))
    by (apply fifo_bytes_used_range; lia).
  pose proof (skip_amount_range U len' _ Hsa) as Hskip. fold skip in Hskip.
  pose proof (skip_amount_spec U len' (skip_ahead_bytes a)) as Espec.
  fold skip in Espec.
  split; [exact Espec|]. split.
  { intros Hnz. rewrite Espec in Hnz.
    destruct (Z.leb_spec len' U), (Z.ltb_spec 0 (skip_ahead_bytes a));
      cbn [andb] in Hnz; lia. }
  split; [lia|].
  destruct (callback_gen fixed_mul decode_sample_mix decode_check_start_point
              rate buf a out F Hpre Hrun) as (e & ->).
  fold len'. fold U. fold skip.
  eexists. split; [reflexivity|]. cbn [res_audio].
  destruct (Z.eqb_spec len' 0) as [E0|Hpos].
  { fold U. repeat split; lia. }
  destruct (Z.eqb_spec (Z.min U len') 0) as [E0|Hused].
  { cbn [with_state skip_ahead_bytes fifo_of state]. fold U.
    assert (skip = 0).
    { rewrite Espec. destruct (Z.leb_spec len' U); [lia|reflexivity]. }
    repeat split; try lia.
    intros _. rewrite underrun_after_set. symmetry. apply Z.ltb_lt. lia. }
  rewrite note_track_rate_skip, note_track_rate_fifo, note_track_rate_state.
  unfold with_elapsed_samples, audio_consumed.
  cbn [skip_ahead_bytes fifo_of state].
  rewrite fifo_bytes_used_incby by (fold U; lia). fold U.
  repeat split; try lia.
  intros _. destruct (Z.ltb_spec U len').
  - apply underrun_after_set.
  - apply underrun_after_clear.
Qed.

(** The callback keeps the fifo well formed and frame aligned, so
    both hold at every callback once they hold at the first. *)
Lemma callback_preserves_alignment rate buf a out F :
  callback_pre rate buf a out F -> frame_aligned a ->
  exists r,
    run_callback rate buf a out F = Done r
    /\ frame_aligned (res_audio r)
    /\ fifo_ok (fifo_of (res_audio r)) buf
    /\ 0 <= skip_ahead_bytes (res_audio r).
Proof.
  intros Hpre Hal.
  destruct (flag_set (state a) DECODE_STATE_RUNNING) eqn:Hrun.
  - rewrite callback_running_spec by assumption. cbv zeta.
    eexists. split; [reflexivity|]. cbn [res_audio].
    destruct Hpre as ((Hr & Hw & Hb) & Hsa & HF & HFmax & _).
    destruct Hal as (Asz & Ar & Aw & Asa).
    pose proof (len_after_silence_range rate a F ltac:(lia) HFmax)
      as (Hlen' & Alen').
    set (len' := len_after_silence rate a F) in *.
    set (U := fifo_bytes_used (fifo_of a)).
    assert (AU : aligned U) by now apply fifo_bytes_used_aligned.
    pose proof (skip_amount_range U len' _ Hsa) as Hskip.
    pose proof (skip_amount_aligned U len' _ AU Alen' Asa) as Askip.
    destruct (_ =? 0);
      [unfold frame_aligned, fifo_ok; repeat split; first [assumption|lia]|].
    destruct (_ =? 0);
      [unfold frame_aligned, fifo_ok, with_state;
       cbn [fifo_of skip_ahead_bytes];
       repeat split; first [assumption|lia]|].
    unfold frame_aligned, fifo_ok.
    rewrite note_track_rate_fifo, note_track_rate_skip.
    unfold audio_consumed, fifo_rptr_incby.
    cbn [fifo_of skip_ahead_bytes rptr wptr size].
    assert (Aused : aligned (Z.min U len')).
    { destruct (Z.min_spec U len') as [[_ ->]|[_ ->]]; assumption. }
    pose proof (Z.mod_pos_bound (rptr (fifo_of a)
                  + (skip_amount U len' (skip_ahead_bytes a) + Z.min U len'))
                  (size (fifo_of a)) ltac:(lia)).
    repeat split; try assumption; try lia.
    + apply aligned_mod; [|exact Asz].
      apply aligned_add; [exact Ar|]. now apply aligned_add.
    + now apply aligned_sub.
  - unfold callback. rewrite Hrun. cbn [negb].
    eexists. split; [reflexivity|]. cbn [mixin_effects res_audio].
    destruct Hpre as (Hfifo & Hsa & _). auto.
Qed.

(** The callback never touches the running flag: play and pause are
    decided elsewhere. *)
Lemma callback_keeps_running_flag rate buf a out F :
  callback_pre rate buf a out F ->
  flag_set (state a) DECODE_STATE_RUNNING = true ->
  exists r,
    run_callback rate buf a out F = Done r
    /\ flag_set (state (res_audio r)) DECODE_STATE_RUNNING = true.
Proof.
  intros Hpre Hrun.
  destruct (callback_gen fixed_mul decode_sample_mix decode_check_start_point
              rate buf a out F Hpre Hrun) as (e & ->).
  eexists. split; [reflexivity|]. cbn [res_audio].
  destruct (_ =? 0); [exact Hrun|].
  destruct (_ =? 0).
  - cbn [with_state state]. now rewrite running_after_set.
  - rewrite note_track_rate_state.
    unfold with_elapsed_samples, audio_consumed. cbn [state].
    destruct (_ <? _).
    + now rewrite running_after_set.
    + now rewrite running_after_clear.
Qed.

(** C9.  With the running flag clear the callback zeroes the whole
    output, leaves the shared state as it was (elapsed-sample counter,
    read index, underrun flag and skip counter included), still runs
    the effects mixer over the full byte length, and returns
    [paContinue]. *)
Theorem stopped_callback_is_silent rate buf a out F :
  flag_set (state a) DECODE_STATE_RUNNING = false ->
  0 <= F -> 2 * F * sizeof_sample_t < 2 ^ SIZE_BITS ->
  Z.of_nat (length out) = 2 * F * sizeof_sample_t ->
  run_callback rate buf a out F
  = Done
      (mk_result a
         (decode_sample_mix
            (replicate (Z.to_nat (2 * F * sizeof_sample_t)) 0)
            (2 * F * sizeof_sample_t))
         [EvLock; EvMix (2 * F * sizeof_sample_t)]
         paContinue).
Proof.
  intros Hrun HF HFmax Hout. unfold callback. rewrite Hrun. cbn [negb].
  unfold mixin_effects.
  assert (Elen : SAMPLES_TO_BYTES F = 2 * F * sizeof_sample_t).
  { rewrite SAMPLES_TO_BYTES_small by assumption. unfold sizeof_sample_t. lia. }
  rewrite Elen, memset0_all by exact Hout. reflexivity.
Qed.

(** C2, as the code has it.  When the running flag is clear the
    callback takes the lock, jumps past the unlock to the mixer and
    returns with the lock still held. *)
Theorem stopped_callback_keeps_lock rate buf a out F :
  flag_set (state a) DECODE_STATE_RUNNING = false ->
  exists r,
    run_callback rate buf a out F = Done r
    /\ res_trace r = [EvLock; EvMix (SAMPLES_TO_BYTES F)]
    /\ lock_depth (res_trace r) = 1.
Proof.
  intros Hrun. unfold callback. rewrite Hrun. cbn [negb].
  eexists. split; [reflexivity|]. split; reflexivity.
Qed.

(** The sibling paths: with the running flag set the lock is released
    before the mixer runs. *)
Lemma callback_running_releases_lock rate buf a out F :
  callback_pre rate buf a out F ->
  flag_set (state a) DECODE_STATE_RUNNING = true ->
  exists r,
    run_callback rate buf a out F = Done r
    /\ res_trace r = [EvLock; EvUnlock; EvMix (8 * F)]
    /\ lock_depth (res_trace r) = 0.
Proof.
  intros Hpre Hrun.
  destruct (callback_gen fixed_mul decode_sample_mix decode_check_start_point
              rate buf a out F Hpre Hrun) as (e & ->).
  eexists. split; [reflexivity|]. split; reflexivity.
Qed.

(** C3, as the code has it.  The callback works on a local copy of
    the pending silence and never stores it back: the shared
    [add_silence_ms] is the same after the call as before. *)
Theorem callback_keeps_add_silence_ms rate buf a out F :
  callback_pre rate buf a out F ->
  flag_set (state a) DECODE_STATE_RUNNING = true ->
  exists r,
    run_callback rate buf a out F = Done r
    /\ add_silence_ms (res_audio r) = add_silence_ms a.
Proof.
  intros Hpre Hrun.
  destruct (callback_gen fixed_mul decode_sample_mix decode_check_start_point
              rate buf a out F Hpre Hrun) as (e & ->).
  eexists. split; [reflexivity|]. cbn [res_audio].
  destruct (_ =? 0); [reflexivity|].
  destruct (_ =? 0); [reflexivity|].
  now rewrite note_track_rate_silence.
Qed.

(** C7.  When a callback that copied audio finds the start point
    reached and the track rate different from the stream rate, it
    records the track rate in [set_sample_rate] and touches no stream;
    the stream-finished notifier then queues [finished_handler] only
    if that pending rate is non-zero, and the worker running the
    request reopens the stream at that rate. *)
Theorem rate_change_is_deferred w buf out F pa :
  let a := decode_audio_of w in
  let rate := stream_sample_rate w in
  callback_pre rate buf a out F ->
  flag_set (state a) DECODE_STATE_RUNNING = true ->
  0 < len_after_silence rate a F ->
  0 < fifo_bytes_used (fifo_of a) ->
  exists r a3,
    run_callback rate buf a out F = Done r
    /\ no_stream_events (res_trace r) = true
    /\ res_audio r = note_track_rate decode_check_start_point rate a3
    /\ track_sample_rate a3 = track_sample_rate a
    /\ set_sample_rate a3 = set_sample_rate a
    /\ set_sample_rate (res_audio r)
       = (if decode_check_start_point a3
             && negb (track_sample_rate a =? rate)
          then track_sample_rate a else set_sample_rate a)
    /\ let w1 := with_decode_audio (res_audio r) w in
       let pending := set_sample_rate (res_audio r) in
       no_stream_events (snd (finished w1)) = true
       /\ stream_sample_rate (fst (finished w1)) = rate
       /\ (pending = 0 -> finished w1 = (w1, []))
       /\ (pending <> 0 -> decode_mqueue w = None ->
           let w2 := fst (finished w1) in
           decode_mqueue w2 = Some FinishedHandler
           /\ decode_audio_of w2 = res_audio r
           /\ stream_sample_rate (fst (worker_step pa w2)) = pending
           /\ In (EvOpenStream pending) (snd (worker_step pa w2))
           /\ decode_mqueue (fst (worker_step pa w2)) = None
           /\ set_sample_rate (decode_audio_of (fst (worker_step pa w2))) = 0).
Proof.
  intros a rate Hpre Hrun Hlen HU.
  destruct (callback_gen fixed_mul decode_sample_mix decode_check_start_point
              rate buf a out F Hpre Hrun) as (e & ->).
  destruct (Z.eqb_spec (len_after_silence rate a F) 0) as [?|_]; [lia|].
  destruct (Z.eqb_spec (Z.min (fifo_bytes_used (fifo_of a))
                          (len_after_silence rate a F)) 0) as [?|_]; [lia|].
  eexists. eexists. split; [reflexivity|]. split; [reflexivity|].
  cbn [res_audio]. split; [reflexivity|].
  split; [reflexivity|]. split; [reflexivity|]. split.
  { unfold note_track_rate. cbn [track_sample_rate with_elapsed_samples audio_consumed].
    now destruct (_ && _). }
  set (a' := note_track_rate _ _ _). cbv zeta.
  unfold finished. cbn [decode_audio_of with_decode_audio decode_mqueue].
  split; [|split; [|split]].
  - destruct (_ =? 0); [reflexivity|]. cbn [negb].
    destruct (mqueue_write_request _); reflexivity.
  - destruct (_ =? 0); [reflexivity|]. cbn [negb].
    destruct (mqueue_write_request _); reflexivity.
  - intros ->. reflexivity.
  - intros Hne Hq. rewrite Hq.
    destruct (Z.eqb_spec (set_sample_rate a') 0) as [?|_]; [contradiction|].
    cbn [negb mqueue_write_request mqueue_write_complete fst].
    unfold worker_step, finished_handler, decode_portaudio_openstream.
    cbn [decode_mqueue with_decode_mqueue with_decode_audio decode_audio_of
         with_stream with_stream_sample_rate stream_sample_rate
         mqueue_read_complete fst snd set_sample_rate with_set_sample_rate].
    split; [reflexivity|]. split; [reflexivity|]. split; [reflexivity|].
    split; [|split; reflexivity].
    apply in_or_app. right. cbn. right. right. right. now left.
Qed.

(** C8.  A stream-finished notification that finds a request already
    pending drops its own: the slot keeps the request it held, nothing
    else changes, and the drop is only logged. *)
Theorem finished_drops_when_pending w f :
  set_sample_rate (decode_audio_of w) <> 0 ->
  decode_mqueue w = Some f ->
  finished w = (w, [EvDropped])
  /\ decode_mqueue (fst (finished w)) = Some f.
Proof.
  intros Hne Hq. unfold finished. rewrite Hq.
  destruct (Z.eqb_spec (set_sample_rate (decode_audio_of w)) 0) as [?|_];
    [contradiction|].
  cbn. split; [reflexivity|exact Hq].
Qed.

End Properties.

(** C10.  [decode_portaudio_openstream] reads the pending rate
    between taking and releasing the lock, resets it to 0, then opens
    the stream at the rate it read, zero included, and records that
    rate as the stream rate; this is its only read, its only lock and
    its only open.  After start, stop, the queued handler and init
    alike the pending rate is 0. *)
Theorem openstream_takes_pending_rate pa w :
  let pending := set_sample_rate (decode_audio_of w) in
  let w' := fst (decode_portaudio_openstream pa w) in
  let t := snd (decode_portaudio_openstream pa w) in
  set_sample_rate (decode_audio_of w') = 0
  /\ stream_sample_rate w' = pending
  /\ (exists t1 t2,
        t = t1 ++ [EvLock; EvTakeRate pending; EvUnlock; EvOpenStream pending]
               ++ t2
        /\ forallb (fun e => match e with
                             | EvOpenStream _ | EvTakeRate _ | EvLock | EvUnlock =>
                                 false
                             | _ => true
                             end)
             (t1 ++ t2) = true)
  /\ In (EvOpenStream 0)
       (snd (decode_portaudio_openstream pa
               (with_decode_audio (with_set_sample_rate 0 (decode_audio_of w)) w)))
  /\ set_sample_rate (decode_audio_of (fst (decode_portaudio_start pa w))) = 0
  /\ set_sample_rate (decode_audio_of (fst (decode_portaudio_stop pa w))) = 0
  /\ stream_sample_rate (fst (decode_portaudio_stop pa w)) = 44100
  /\ set_sample_rate (decode_audio_of (fst (finished_handler pa w))) = 0
  /\ stream_sample_rate (fst (finished_handler pa w)) = pending
  /\ forall supported fresh fifo_size,
       match decode_portaudio_init true supported true true fresh fifo_size pa with
       | (_, Some (w0, _)) =>
           set_sample_rate (decode_audio_of w0) = 0
           /\ stream_sample_rate w0 = 44100
       | (_, None) => True
       end.
Proof.
  cbv zeta. unfold decode_portaudio_start, decode_portaudio_stop,
    finished_handler, decode_portaudio_openstream.
  cbn [fst snd decode_audio_of stream_sample_rate with_decode_audio
       with_stream with_stream_sample_rate with_decode_mqueue
       set_sample_rate with_set_sample_rate].
  repeat split.
  - exists (if stream w then EvCloseStream :: warn_unless (close_ok pa) else []).
    exists (warn_unless (open_ok pa)
            ++ (EvSetStreamFinishedCallback :: warn_unless (set_finished_ok pa))
            ++ EvStartStream :: warn_unless (start_ok pa)).
    split.
    + cbn [app]. reflexivity.
    + destruct (stream w), pa as [[] [] ? [] []]; reflexivity.
  - apply in_or_app. right. cbn. right. right. right. now left.
  - intros supported fresh fifo_size. unfold decode_portaudio_init.
    cbn [negb]. destruct (first_supported 0 supported); [|exact I].
    unfold decode_portaudio_openstream. cbn. split; reflexivity.
Qed.

(** * The properties on sample inputs *)

Ltac by_computation :=
  vm_compute; repeat split; try discriminate; try reflexivity.

Lemma sample_pre2 :
  callback_pre 44100 Sample.fifo_buf Sample.audio Sample.out2 2.
Proof. by_computation. Defined.

Lemma sample_pre4 :
  callback_pre 44100 Sample.fifo_buf Sample.audio Sample.out4 4.
Proof. by_computation. Defined.

Lemma sample_aligned : frame_aligned Sample.audio.
Proof. by_computation. Defined.

Lemma sample_pre_skipping :
  callback_pre 44100 Sample.fifo_buf Sample.skipping Sample.out2 2.
Proof. by_computation. Defined.

Lemma sample_pre_silent :
  callback_pre 44100 Sample.fifo_buf Sample.silent Sample.out4 4.
Proof. by_computation. Defined.

(** Two frames requested, three buffered: two scaled frames, no
    underrun. *)
Lemma callback_output_by_fill_level_witness :
  callback_pre 44100 Sample.fifo_buf Sample.audio Sample.out2 2
  /\ frame_aligned Sample.audio
  /\ flag_set (state Sample.audio) DECODE_STATE_RUNNING = true
  /\ add_silence_ms Sample.audio = 0
  /\ exists r,
       callback Sample.fixed_mul Sample.no_mix Sample.wrapped
         44100 Sample.fifo_buf Sample.audio Sample.out2 2 = Done r
       /\ res_output r = [10;0;0;0; 18;0;0;0; 14;0;0;0; 24;0;0;0]
       /\ flag_set (state (res_audio r)) DECODE_STATE_UNDERRUN = false.
Proof.
  split; [exact sample_pre2|]. split; [exact sample_aligned|].
  split; [reflexivity|]. split; [reflexivity|].
  destruct (callback_output_by_fill_level
              Sample.fixed_mul Sample.no_mix Sample.wrapped
              44100 Sample.fifo_buf Sample.audio Sample.out2 2
              sample_pre2 sample_aligned eq_refl eq_refl)
    as (r & Hr & Hfull & _ & _).
  exists r. split; [exact Hr|].
  destruct Hfull as [Ho Hf]; [vm_compute; discriminate|].
  split; [rewrite Ho; reflexivity|exact Hf].
Defined.

(** A pending skip of 16 bytes with 8 bytes to spare: 8 are skipped,
    the request is still served in full. *)
Lemma skip_never_starves_witness :
  callback_pre 44100 Sample.fifo_buf Sample.skipping Sample.out2 2
  /\ flag_set (state Sample.skipping) DECODE_STATE_RUNNING = true
  /\ skip_amount 24 16 16 = 8
  /\ exists r,
       callback Sample.fixed_mul Sample.no_mix Sample.wrapped
         44100 Sample.fifo_buf Sample.skipping Sample.out2 2 = Done r
       /\ skip_ahead_bytes (res_audio r) = 8
       /\ fifo_bytes_used (fifo_of (res_audio r)) = 0
       /\ flag_set (state (res_audio r)) DECODE_STATE_UNDERRUN = false.
Proof.
  split; [exact sample_pre_skipping|]. split; [reflexivity|].
  split; [reflexivity|].
  destruct (skip_never_starves
              Sample.fixed_mul Sample.no_mix Sample.wrapped
              44100 Sample.fifo_buf Sample.skipping Sample.out2 2
              sample_pre_skipping eq_refl)
    as (_ & _ & _ & r & Hr & Hskipped & Hused & _ & Hflag).
  exists r. split; [exact Hr|].
  split; [|split].
  - vm_compute in Hskipped.
    change (16 - skip_ahead_bytes (res_audio r) = 8) in Hskipped. lia.
  - rewrite Hused, Hskipped. reflexivity.
  - rewrite Hflag; [reflexivity|]. vm_compute. reflexivity.
Defined.

(** Four frames requested with three buffered across the wrap: the
    frame past the wrap is scaled like the ones before it. *)
Lemma callback_gain_per_frame_witness :
  callback_pre 44100 Sample.fifo_buf Sample.audio Sample.out4 4
  /\ flag_set (state Sample.audio) DECODE_STATE_RUNNING = true
  /\ exists r pre,
       callback Sample.fixed_mul Sample.no_mix Sample.wrapped
         44100 Sample.fifo_buf Sample.audio Sample.out4 4 = Done r
       /\ res_output r = Sample.no_mix pre 32
       /\ (load_sample pre 0 = 2 * 5 /\ load_sample pre 4 = 3 * 6)
       /\ (load_sample pre 16 = 2 * 1 /\ load_sample pre 20 = 3 * 2).
Proof.
  split; [exact sample_pre4|]. split; [reflexivity|].
  destruct (callback_gain_per_frame
              Sample.fixed_mul Sample.no_mix Sample.wrapped
              44100 Sample.fifo_buf Sample.audio Sample.out4 4
              sample_pre4 eq_refl)
    as (r & pre & Hr & Ho & Hseg1 & Hseg2).
  exists r, pre. split; [exact Hr|]. split; [exact Ho|]. split.
  - exact (Hseg1 0 ltac:(by_computation)).
  - exact (Hseg2 0 ltac:(by_computation)).
Defined.

(** Three frames leave the fifo, the counter goes from 100 to 103. *)
Lemma callback_elapsed_samples_witness :
  callback_pre 44100 Sample.fifo_buf Sample.audio Sample.out4 4
  /\ frame_aligned Sample.audio
  /\ exists r,
       callback Sample.fixed_mul Sample.no_mix Sample.wrapped
         44100 Sample.fifo_buf Sample.audio Sample.out4 4 = Done r
       /\ elapsed_samples (res_audio r) = 103
       /\ fifo_bytes_used (fifo_of (res_audio r)) = 0.
Proof.
  split; [exact sample_pre4|]. split; [exact sample_aligned|].
  destruct (callback_elapsed_samples
              Sample.fixed_mul Sample.no_mix Sample.wrapped
              44100 Sample.fifo_buf Sample.audio Sample.out4 4
              sample_pre4 sample_aligned)
    as (r & Hr & He & Hu & Hs & _).
  exists r. split; [exact Hr|].
  vm_compute in Hr. injection Hr as <-. split; reflexivity.
Defined.

(** The read index wraps into the first half, the track is at 48000
    and the stream at 44100: the callback notes 48000, the notifier
    queues the handler, the worker reopens at 48000. *)
Lemma rate_change_is_deferred_witness :
  callback_pre 44100 Sample.fifo_buf Sample.audio Sample.out4 4
  /\ flag_set (state Sample.audio) DECODE_STATE_RUNNING = true
  /\ 0 < len_after_silence 44100 Sample.audio 4
  /\ 0 < fifo_bytes_used (fifo_of Sample.audio)
  /\ exists r,
       callback Sample.fixed_mul Sample.no_mix Sample.wrapped
         44100 Sample.fifo_buf Sample.audio Sample.out4 4 = Done r
       /\ no_stream_events (res_trace r) = true
       /\ set_sample_rate (res_audio r) = 48000
       /\ stream_sample_rate
            (fst (worker_step Sample.pa_ok
                    (fst (finished
                            (with_decode_audio (res_audio r) Sample.world0)))))
          = 48000.
Proof.
  split; [exact sample_pre4|]. split; [reflexivity|].
  split; [reflexivity|]. split; [reflexivity|].
  destruct (rate_change_is_deferred
              Sample.fixed_mul Sample.no_mix Sample.wrapped
              Sample.world0 Sample.fifo_buf Sample.out4 4 Sample.pa_ok
              sample_pre4 eq_refl eq_refl eq_refl)
    as (r & a3 & Hr & Hquiet & _ & _ & _ & _ & _).
  exists r. split; [exact Hr|]. split; [exact Hquiet|].
  vm_compute in Hr. injection Hr as <-. split; reflexivity.
Defined.

Lemma finished_drops_when_pending_witness :
  set_sample_rate (decode_audio_of Sample.world_pending) <> 0
  /\ decode_mqueue Sample.world_pending = Some FinishedHandler
  /\ finished Sample.world_pending = (Sample.world_pending, [EvDropped]).
Proof.
  assert (Hne : set_sample_rate (decode_audio_of Sample.world_pending) <> 0)
    by (vm_compute; discriminate).
  split; [exact Hne|]. split; [reflexivity|].
  exact (proj1 (finished_drops_when_pending Sample.world_pending
                  FinishedHandler Hne eq_refl)).
Defined.

Lemma stopped_callback_is_silent_witness :
  flag_set (state Sample.stopped) DECODE_STATE_RUNNING = false
  /\ 0 <= 2 /\ 2 * 2 * sizeof_sample_t < 2 ^ SIZE_BITS
  /\ Z.of_nat (length Sample.out2) = 2 * 2 * sizeof_sample_t
  /\ callback Sample.fixed_mul Sample.no_mix Sample.wrapped
       44100 Sample.fifo_buf Sample.stopped Sample.out2 2
     = Done (mk_result Sample.stopped (replicate 16 0)
               [EvLock; EvMix 16] paContinue).
Proof.
  assert (H0 : 0 <= 2) by lia.
  assert (Hmax : 2 * 2 * sizeof_sample_t < 2 ^ SIZE_BITS) by reflexivity.
  split; [reflexivity|]. split; [exact H0|]. split; [exact Hmax|].
  split; [reflexivity|].
  exact (stopped_callback_is_silent Sample.fixed_mul Sample.no_mix Sample.wrapped
           44100 Sample.fifo_buf Sample.stopped Sample.out2 2
           eq_refl H0 Hmax eq_refl).
Defined.

Lemma stopped_callback_keeps_lock_witness :
  flag_set (state Sample.stopped) DECODE_STATE_RUNNING = false
  /\ exists r,
       callback Sample.fixed_mul Sample.no_mix Sample.wrapped
         44100 Sample.fifo_buf Sample.stopped Sample.out2 2 = Done r
       /\ res_trace r = [EvLock; EvMix 16]
       /\ lock_depth (res_trace r) = 1.
Proof.
  split; [reflexivity|].
  exact (stopped_callback_keeps_lock
           Sample.fixed_mul Sample.no_mix Sample.wrapped
           44100 Sample.fifo_buf Sample.stopped Sample.out2 2 eq_refl).
Defined.

(** One millisecond of silence pending: the whole buffer is silence,
    the local copy drops to 0, the shared field still reads 1. *)
Lemma callback_keeps_add_silence_ms_witness :
  callback_pre 44100 Sample.fifo_buf Sample.silent Sample.out4 4
  /\ flag_set (state Sample.silent) DECODE_STATE_RUNNING = true
  /\ silence_remaining 1 (silence_bytes 1 44100 32) 44100 = 0
  /\ exists r,
       callback Sample.fixed_mul Sample.no_mix Sample.wrapped
         44100 Sample.fifo_buf Sample.silent Sample.out4 4 = Done r
       /\ add_silence_ms (res_audio r) = 1
       /\ res_output r = replicate 32 0.
Proof.
  split; [exact sample_pre_silent|]. split; [reflexivity|].
  split; [reflexivity|].
  destruct (callback_keeps_add_silence_ms
              Sample.fixed_mul Sample.no_mix Sample.wrapped
              44100 Sample.fifo_buf Sample.silent Sample.out4 4
              sample_pre_silent eq_refl)
    as (r & Hr & Hms).
  exists r. split; [exact Hr|]. split; [exact Hms|].
  vm_compute in Hr. injection Hr as <-. reflexivity.
Defined.

(** * Further properties of the code *)

(** ** The copy loop *)

Section CopyLoop.

Variable fixed_mul : Z -> Z -> Z.

(** With two rounds of fuel or more the loop gives the two segments. *)
Lemma copy_loop_any_fuel fuel buf a out o n :
  0 <= rptr (fifo_of a) < size (fifo_of a) ->
  0 < n <= size (fifo_of a) -> 0 <= o -> (2 <= fuel)%nat ->
  copy_loop fixed_mul fuel buf a out o n
  = Done
      (with_elapsed_samples
         (elapsed_samples a
          + BYTES_TO_SAMPLES
              (if size (fifo_of a) - rptr (fifo_of a) <? n
               then size (fifo_of a) - rptr (fifo_of a) else n)
          + BYTES_TO_SAMPLES
              (n - (if size (fifo_of a) - rptr (fifo_of a) <? n
                    then size (fifo_of a) - rptr (fifo_of a) else n)))
         (audio_rptr_incby n a),
       copied_segments fixed_mul buf out a o n 0).
Proof.
  intros Hr Hn Ho Hfuel. unfold copied_segments.
  rewrite Z.add_0_r, (Z.mod_small (rptr (fifo_of a))) by lia.
  destruct a as [st [r w sz] lg rg ms sa el tr ssr mr].
  cbn [fifo_of rptr size lgain rgain elapsed_samples] in *.
  destruct fuel as [|[|fuel]]; try lia.
  rewrite copy_loop_step by lia.
  audio_simpl. cbv zeta.
  rewrite copy_frames_spec by exact Ho.
  destruct (Z.ltb_spec (sz - r) n) as [Hw|Hw].
  - rewrite copy_loop_step by lia.
    audio_simpl. cbv zeta.
    replace (r + (sz - r)) with sz by lia.
    rewrite Z_mod_same_full, Z.sub_0_r, Z.add_0_l.
    destruct (Z.ltb_spec sz (n - (sz - r))) as [Hbig|_]; [lia|].
    rewrite Z.sub_diag, copy_loop_done.
    rewrite copy_frames_spec by lia.
    do 2 f_equal. f_equal. f_equal.
    replace (r + n) with ((n - (sz - r)) + 1 * sz) by lia.
    now rewrite Z_mod_plus_full.
  - rewrite Z.sub_diag, copy_loop_done.
    change (Z.to_nat (BYTES_TO_SAMPLES 0)) with 0%nat.
    cbn [gain_frames]. rewrite write_bytes_nil.
    change (BYTES_TO_SAMPLES 0) with 0. rewrite Z.add_0_r. reflexivity.
Qed.

(** The while loop of lines 128-153 needs at most two rounds: given
    fuel for two rounds or for any number more it ends in the same
    state, with the read index advanced by the bytes asked for and the
    output buffer as long as before. *)
Theorem copy_loop_two_rounds fuel buf a out o n :
  0 <= rptr (fifo_of a) < size (fifo_of a) ->
  0 <= n <= size (fifo_of a) -> 0 <= o ->
  (2 <= fuel)%nat ->
  exists a' out',
    copy_loop fixed_mul 2 buf a out o n = Done (a', out')
    /\ copy_loop fixed_mul fuel buf a out o n = Done (a', out')
    /\ rptr (fifo_of a') = (rptr (fifo_of a) + n) mod size (fifo_of a)
    /\ length out' = length out.
Proof.
  intros Hr Hn Ho Hfuel.
  destruct (Z.eq_dec n 0) as [->|Hnz].
  { exists a, out. rewrite !copy_loop_done, Z.add_0_r, Z.mod_small by lia.
    auto. }
  rewrite (copy_loop_any_fuel 2) by lia.
  rewrite (copy_loop_any_fuel fuel) by lia.
  eexists. eexists. split; [reflexivity|]. split; [reflexivity|].
  split; [reflexivity|].
  unfold copied_segments. now rewrite !length_write_bytes.
Qed.

End CopyLoop.

(** ** What the callback reads *)

Lemma load_sample_ext buf buf' off :
  (forall i, off <= i < off + 4 -> byte_at buf i = byte_at buf' i) ->
  load_sample buf off = load_sample buf' off.
Proof.
  intros H. unfold load_sample. rewrite !H by lia. reflexivity.
Qed.

Section Reads.

Variable fixed_mul : Z -> Z -> Z.
Variable decode_sample_mix : list Z -> Z -> list Z.
Variable decode_check_start_point : decode_audio -> bool.

Lemma copy_frames_ext n lg rg buf buf' src out dst :
  (forall i, src <= i < src + 8 * Z.of_nat n -> byte_at buf i = byte_at buf' i) ->
  copy_frames fixed_mul n lg rg buf src out dst
  = copy_frames fixed_mul n lg rg buf' src out dst.
Proof.
  revert src out dst. induction n as [|n IH]; intros src out dst H.
  - reflexivity.
  - cbn [copy_frames]. unfold sizeof_sample_t.
    rewrite (load_sample_ext buf buf' src) by (intros; apply H; lia).
    rewrite (load_sample_ext buf buf' (src + 4)) by (intros; apply H; lia).
    apply IH. intros i Hi. apply H. lia.
Qed.

(** The loop reads the [n] bytes that follow the read index around the
    ring, and no others. *)
Lemma copy_loop_ext fuel buf buf' :
  forall a out o n,
    0 <= rptr (fifo_of a) < size (fifo_of a) -> 0 <= n ->
    (forall j, 0 <= j < n ->
       byte_at buf ((rptr (fifo_of a) + j) mod size (fifo_of a))
       = byte_at buf' ((rptr (fifo_of a) + j) mod size (fifo_of a))) ->
    copy_loop fixed_mul fuel buf a out o n
    = copy_loop fixed_mul fuel buf' a out o n.
Proof.
  induction fuel as [|fuel IH]; intros a out o n Hr Hn Hagree.
  - reflexivity.
  - destruct (Z.eq_dec n 0) as [->|Hnz]; [now rewrite !copy_loop_done|].
    rewrite !copy_loop_step by exact Hnz. cbv zeta.
    set (wrap := fifo_bytes_until_rptr_wrap (fifo_of a)).
    assert (Hwrap : wrap = size (fifo_of a) - rptr (fifo_of a)) by reflexivity.
    set (bw := if wrap <? n then wrap else n).
    assert (Hbw : 0 < bw <= n /\ bw <= wrap)
      by (subst bw; destruct (Z.ltb_spec wrap n); lia).
    assert (Hfr : 0 <= 8 * BYTES_TO_SAMPLES bw <= bw).
    { unfold BYTES_TO_SAMPLES, sizeof_sample_t. change (2 * 4) with 8.
      pose proof (Z.mul_div_le bw 8 ltac:(lia)).
      pose proof (Z.div_pos bw 8 ltac:(lia) ltac:(lia)). lia. }
    rewrite (copy_frames_ext _ _ _ buf buf').
    2:{ intros i Hi.
        replace i with ((rptr (fifo_of a) + (i - rptr (fifo_of a)))
                        mod size (fifo_of a))
          by (rewrite Z.mod_small; lia).
        apply Hagree. lia. }
    apply IH.
    + cbn. apply Z.mod_pos_bound. lia.
    + lia.
    + intros j Hj. cbn [with_elapsed_samples audio_rptr_incby with_fifo
                        fifo_rptr_incby fifo_of rptr size].
      rewrite Zplus_mod_idemp_l, <- Z.add_assoc. apply Hagree. lia.
Qed.

Lemma callback_play_ext rate buf buf' F a out o len trace :
  0 <= rptr (fifo_of a) < size (fifo_of a) -> 0 <= skip_ahead_bytes a ->
  0 <= len -> buffered_agree (fifo_of a) buf buf' ->
  callback_play fixed_mul decode_sample_mix decode_check_start_point
    rate buf F a out o len trace
  = callback_play fixed_mul decode_sample_mix decode_check_start_point
      rate buf' F a out o len trace.
Proof.
  intros Hr Hsa Hlen Hagree. unfold callback_play.
  set (U := fifo_bytes_used (fifo_of a)).
  assert (HU : 0 <= U < size (fifo_of a))
    by (apply fifo_bytes_used_range; lia).
  pose proof (skip_amount_range U len _ Hsa) as Hskip.
  set (skip := skip_amount U len (skip_ahead_bytes a)) in *.
  set (used := if U >? len then len else U).
  assert (Hused : 0 <= used /\ skip + used <= U)
    by (subst used; destruct (Z.gtb_spec U len); lia).
  destruct (used =? 0); [reflexivity|].
  set (pair := if used <? len then _ else _).
  assert (Hpair : exists st out1, pair = (with_state st a, out1))
    by (subst pair; destruct (used <? len); eauto).
  destruct Hpair as (st & out1 & ->).
  destruct (skip_ahead_gen (with_state st a) skip) as (e & ->);
    [exact Hr|lia|].
  rewrite (copy_loop_ext _ buf buf'); [reflexivity| | |].
  - cbn. apply Z.mod_pos_bound. lia.
  - lia.
  - intros j Hj. cbn [with_elapsed_samples with_skip_ahead_bytes
                      audio_rptr_incby with_fifo with_state
                      fifo_rptr_incby fifo_of rptr size].
    rewrite Zplus_mod_idemp_l, <- Z.add_assoc. apply Hagree. fold U. lia.
Qed.

(** The callback reads only buffered audio: two fifo memories that
    agree between the read index and the write index give the same
    run, whatever the rest of the memory holds. *)
Theorem callback_reads_only_buffered rate buf buf' a out F :
  0 <= rptr (fifo_of a) < size (fifo_of a) ->
  0 <= skip_ahead_bytes a ->
  buffered_agree (fifo_of a) buf buf' ->
  callback fixed_mul decode_sample_mix decode_check_start_point
    rate buf a out F
  = callback fixed_mul decode_sample_mix decode_check_start_point
      rate buf' a out F.
Proof.
  intros Hr Hsa Hagree. unfold callback.
  pose proof (SAMPLES_TO_BYTES_range F) as Hlen.
  destruct (negb _); [reflexivity|].
  destruct (_ =? 0).
  - apply callback_play_ext; (assumption || lia).
  - cbv zeta. destruct (rate =? 0); [reflexivity|].
    destruct (_ =? 0); [reflexivity|].
    apply callback_play_ext; try assumption.
    pose proof (silence_bytes_range (to_int (add_silence_ms a)) rate
                  (SAMPLES_TO_BYTES F) ltac:(lia)). lia.
Qed.

End Reads.

(** ** What the callback writes and keeps *)

Lemma byte_at_zeroes n i : byte_at (replicate n 0) i = 0.
Proof.
  unfold byte_at. destruct (replicate n 0 !! Z.to_nat i) as [x|] eqn:E.
  - apply lookup_replicate in E as [-> _]. reflexivity.
  - reflexivity.
Qed.

Lemma testbit_underrun_mask n :
  0 <= n < 32 -> n <> 1 ->
  Z.testbit (to_u32 (Z.lnot DECODE_STATE_UNDERRUN)) n = true.
Proof.
  intros Hn Hne. unfold to_u32, DECODE_STATE_UNDERRUN.
  rewrite Z.mod_pow2_bits_low by lia.
  rewrite Z.lnot_spec by lia. change 2 with (2 ^ 1).
  rewrite Z.pow2_bits_false by lia. reflexivity.
Qed.

Lemma testbit_underrun_flag n :
  0 <= n -> n <> 1 -> Z.testbit DECODE_STATE_UNDERRUN n = false.
Proof.
  intros Hn Hne. unfold DECODE_STATE_UNDERRUN. change 2 with (2 ^ 1).
  apply Z.pow2_bits_false. lia.
Qed.

Section Writes.

Variable fixed_mul : Z -> Z -> Z.
Variable decode_sample_mix : list Z -> Z -> list Z.
Variable decode_check_start_point : decode_audio -> bool.

Local Abbreviation run_callback :=
  (callback fixed_mul decode_sample_mix decode_check_start_point).

(** Whatever the fifo holds, aligned or not, the silence inserted in
    front and the bytes past the copied audio are zero: the copy never
    spills over either. *)
Theorem silence_regions_are_zero rate buf a out F :
  callback_pre rate buf a out F ->
  flag_set (state a) DECODE_STATE_RUNNING = true ->
  let len := SAMPLES_TO_BYTES F in
  let len' := len_after_silence rate a F in
  let used := Z.min (fifo_bytes_used (fifo_of a)) len' in
  exists r pre,
    run_callback rate buf a out F = Done r
    /\ res_output r = decode_sample_mix pre len
    /\ length pre = length out
    /\ forall i,
         0 <= i < len - len' \/ len - len' + used <= i < len ->
         byte_at pre i = 0.
Proof.
  intros Hpre Hrun len len' used.
  destruct (callback_gen fixed_mul decode_sample_mix decode_check_start_point
              rate buf a out F Hpre Hrun) as (e & ->).
  fold len'. fold used.
  destruct Hpre as ((Hr & _) & Hsa & HF & HFmax & Hout & _).
  assert (Elen : len = 8 * F)
    by (apply SAMPLES_TO_BYTES_small; [lia|exact HFmax]).
  rewrite <- Elen.
  pose proof (len_after_silence_range rate a F ltac:(lia) HFmax) as (Hlen' & _).
  fold len' in Hlen'. rewrite <- Elen in Hlen'.
  assert (HU : 0 <= fifo_bytes_used (fifo_of a) < size (fifo_of a))
    by (apply fifo_bytes_used_range; lia).
  assert (Hused : 0 <= used <= len') by (subst used; lia).
  unfold sizeof_sample_t in Hout.
  eexists. eexists. split; [reflexivity|]. split; [reflexivity|].
  unfold copied_segments.
  set (r2 := (rptr (fifo_of a) + _) mod size (fifo_of a)).
  assert (Hr2 : 0 <= r2 < size (fifo_of a))
    by (apply Z.mod_pos_bound; lia).
  set (n1 := if size (fifo_of a) - r2 <? used then size (fifo_of a) - r2 else used).
  assert (Hn1 : 0 <= n1 <= used)
    by (subst n1; destruct (Z.ltb_spec (size (fifo_of a) - r2) used); lia).
  set (seg1 := gain_frames _ _ _ _ _ r2).
  set (seg2 := gain_frames _ _ _ _ _ 0).
  assert (Hb : forall m, 0 <= m -> 0 <= 8 * BYTES_TO_SAMPLES m <= m).
  { intros m Hm. unfold BYTES_TO_SAMPLES, sizeof_sample_t. change (2 * 4) with 8.
    pose proof (Z.mul_div_le m 8 ltac:(lia)).
    pose proof (Z.div_pos m 8 ltac:(lia) ltac:(lia)). lia. }
  assert (Hs1 : Z.of_nat (length seg1) <= n1).
  { subst seg1. rewrite length_gain_frames. pose proof (Hb n1 ltac:(lia)). lia. }
  assert (Hs2 : Z.of_nat (length seg2) <= used - n1).
  { subst seg2. rewrite length_gain_frames.
    pose proof (Hb (used - n1) ltac:(lia)). lia. }
  split.
  { unfold memset0. now rewrite !length_write_bytes. }
  intros i Hi.
  rewrite !byte_at_write_outside by lia.
  unfold memset0. destruct Hi as [Hi|Hi].
  - rewrite byte_at_write_outside by lia.
    rewrite byte_at_write_inside by (rewrite ?length_replicate; lia).
    apply byte_at_zeroes.
  - rewrite byte_at_write_inside
      by (rewrite ?length_write_bytes, ?length_replicate; lia).
    apply byte_at_zeroes.
Qed.

(** The callback only consumes: it keeps the fifo well formed, leaves
    the write index and the capacity alone, never raises the fill
    level or the skip counter, never lets the skip counter go below
    zero, and leaves gains, pending silence, track rate and maximum
    rate as they were. *)
Theorem callback_only_consumes rate buf a out F :
  callback_pre rate buf a out F ->
  exists r,
    run_callback rate buf a out F = Done r
    /\ fifo_ok (fifo_of (res_audio r)) buf
    /\ wptr (fifo_of (res_audio r)) = wptr (fifo_of a)
    /\ size (fifo_of (res_audio r)) = size (fifo_of a)
    /\ 0 <= fifo_bytes_used (fifo_of (res_audio r))
         <= fifo_bytes_used (fifo_of a)
    /\ 0 <= skip_ahead_bytes (res_audio r) <= skip_ahead_bytes a
    /\ lgain (res_audio r) = lgain a /\ rgain (res_audio r) = rgain a
    /\ add_silence_ms (res_audio r) = add_silence_ms a
    /\ track_sample_rate (res_audio r) = track_sample_rate a
    /\ max_rate (res_audio r) = max_rate a.
Proof.
  intros Hpre.
  pose proof Hpre as ((Hr & Hw & Hb) & Hsa & HF & HFmax & _).
  assert (HU : 0 <= fifo_bytes_used (fifo_of a) < size (fifo_of a))
    by (apply fifo_bytes_used_range; lia).
  destruct (flag_set (state a) DECODE_STATE_RUNNING) eqn:Hrun.
  - destruct (callback_gen fixed_mul decode_sample_mix decode_check_start_point
                rate buf a out F Hpre Hrun) as (e & ->).
    eexists. split; [reflexivity|]. cbn [res_audio].
    pose proof (len_after_silence_range rate a F ltac:(lia) HFmax) as (Hlen' & _).
    set (len' := len_after_silence rate a F) in *.
    set (U := fifo_bytes_used (fifo_of a)) in *.
    pose proof (skip_amount_range U len' _ Hsa) as Hskip.
    set (skip := skip_amount U len' (skip_ahead_bytes a)) in *.
    destruct (_ =? 0); [unfold fifo_ok; fold U; repeat split; lia|].
    destruct (_ =? 0);
      [unfold fifo_ok, with_state; cbn [fifo_of skip_ahead_bytes lgain rgain
         add_silence_ms track_sample_rate max_rate]; fold U;
       repeat split; lia|].
    assert (Hnote : forall x,
      note_track_rate decode_check_start_point rate x = x
      \/ note_track_rate decode_check_start_point rate x
         = with_set_sample_rate (track_sample_rate x) x).
    { intros x. unfold note_track_rate. destruct (_ && _); auto. }
    assert (Hcons : 0 <= skip + Z.min U len' <= U) by lia.
    pose proof (fifo_bytes_used_incby (fifo_of a) (skip + Z.min U len')
                  ltac:(lia) Hcons) as Eused.
    pose proof (Z.mod_pos_bound (rptr (fifo_of a) + (skip + Z.min U len'))
                  (size (fifo_of a)) ltac:(lia)) as Hmod.
    destruct (Hnote (with_elapsed_samples e
                (audio_consumed a (U <? len') skip (Z.min U len')))) as [->| ->];
      unfold fifo_ok, with_set_sample_rate, with_elapsed_samples, audio_consumed;
      cbn [fifo_of skip_ahead_bytes lgain rgain add_silence_ms
           track_sample_rate max_rate];
      rewrite Eused; unfold fifo_rptr_incby; cbn [rptr wptr size];
      fold U; repeat split; lia.
  - unfold callback. rewrite Hrun. cbn [negb].
    eexists. split; [reflexivity|]. cbn [mixin_effects res_audio].
    unfold fifo_ok. repeat split; lia.
Qed.

(** Of the bits of [decode_audio->state] the callback changes the
    underrun flag and nothing else. *)
Theorem callback_touches_only_underrun rate buf a out F :
  callback_pre rate buf a out F ->
  exists r,
    run_callback rate buf a out F = Done r
    /\ forall n, 0 <= n < 32 -> n <> 1 ->
         Z.testbit (state (res_audio r)) n = Z.testbit (state a) n.
Proof.
  intros Hpre.
  assert (Hset : forall n, 0 <= n < 32 -> n <> 1 ->
    Z.testbit (Z.lor (state a) DECODE_STATE_UNDERRUN) n = Z.testbit (state a) n).
  { intros n Hn Hne.
    now rewrite Z.lor_spec, testbit_underrun_flag, orb_false_r by lia. }
  assert (Hclr : forall n, 0 <= n < 32 -> n <> 1 ->
    Z.testbit (Z.land (state a) (to_u32 (Z.lnot DECODE_STATE_UNDERRUN))) n
    = Z.testbit (state a) n).
  { intros n Hn Hne.
    now rewrite Z.land_spec, testbit_underrun_mask, andb_true_r by lia. }
  destruct (flag_set (state a) DECODE_STATE_RUNNING) eqn:Hrun.
  - destruct (callback_gen fixed_mul decode_sample_mix decode_check_start_point
                rate buf a out F Hpre Hrun) as (e & ->).
    eexists. split; [reflexivity|]. cbn [res_audio].
    destruct (_ =? 0); [reflexivity|].
    destruct (_ =? 0); [exact Hset|].
    rewrite note_track_rate_state.
    unfold with_elapsed_samples, audio_consumed. cbn [state].
    destruct (_ <? _); assumption.
  - unfold callback. rewrite Hrun. cbn [negb].
    eexists. split; reflexivity.
Qed.

(** Every well-formed call comes back: the loop ends, nothing divides
    by zero, the mixer runs exactly once, last, over the whole
    request, and the status is [paContinue] whether or not audio is
    running. *)
Theorem callback_always_continues rate buf a out F :
  callback_pre rate buf a out F ->
  exists r pre,
    run_callback rate buf a out F = Done r
    /\ res_return r = paContinue
    /\ res_output r = decode_sample_mix pre (SAMPLES_TO_BYTES F)
    /\ length pre = length out
    /\ exists t,
         res_trace r = t ++ [EvMix (SAMPLES_TO_BYTES F)]
         /\ forallb (fun e => match e with EvMix _ => false | _ => true end) t
            = true.
Proof.
  intros Hpre.
  pose proof Hpre as (_ & _ & HF & HFmax & _).
  assert (Elen : SAMPLES_TO_BYTES F = 8 * F)
    by (apply SAMPLES_TO_BYTES_small; [lia|exact HFmax]).
  destruct (flag_set (state a) DECODE_STATE_RUNNING) eqn:Hrun.
  - destruct (callback_gen fixed_mul decode_sample_mix decode_check_start_point
                rate buf a out F Hpre Hrun) as (e & ->).
    rewrite Elen.
    eexists. eexists. split; [reflexivity|]. split; [reflexivity|].
    split; [reflexivity|]. split.
    + unfold copied_segments, memset0. now rewrite !length_write_bytes.
    + exists [EvLock; EvUnlock]. split; reflexivity.
  - unfold callback. rewrite Hrun. cbn [negb].
    eexists. eexists. split; [reflexivity|]. split; [reflexivity|].
    split; [reflexivity|]. split.
    + unfold memset0. now rewrite length_write_bytes.
    + exists [EvLock]. split; reflexivity.
Qed.

(** When the pending silence fills the whole request the callback
    leaves [decode_audio] exactly as it was, the underrun flag of the
    previous call included, and since the pending silence is part of
    it, any number of such calls in a row leave it there: the silence
    never ends by itself. *)
Theorem full_silence_changes_nothing rate buf a out F n :
  callback_pre rate buf a out F ->
  flag_set (state a) DECODE_STATE_RUNNING = true ->
  len_after_silence rate a F = 0 ->
  run_callback rate buf a out F
  = Done (mk_result a
            (decode_sample_mix (replicate (Z.to_nat (8 * F)) 0) (8 * F))
            [EvLock; EvUnlock; EvMix (8 * F)] paContinue)
  /\ after_callbacks fixed_mul decode_sample_mix decode_check_start_point
       n rate buf a out F = Done a.
Proof.
  intros Hpre Hrun Hlen.
  assert (Hone : run_callback rate buf a out F
    = Done (mk_result a
              (decode_sample_mix (replicate (Z.to_nat (8 * F)) 0) (8 * F))
              [EvLock; EvUnlock; EvMix (8 * F)] paContinue)).
  { rewrite callback_running_unfold by assumption. rewrite Hlen.
    cbn [Z.eqb]. unfold unlock_mixin_effects, mixin_effects.
    destruct Hpre as (_ & _ & HF & HFmax & Hout & _).
    rewrite SAMPLES_TO_BYTES_small by (lia || assumption).
    rewrite Z.sub_0_r, memset0_all
      by (unfold sizeof_sample_t in Hout; lia).
    reflexivity. }
  split; [exact Hone|].
  induction n as [|n IH]; [reflexivity|].
  cbn [after_callbacks]. rewrite Hone. cbn [obind res_audio]. exact IH.
Qed.

End Writes.

(** ** Unity gain *)

Lemma byte_at_is_byte buf i : Forall is_byte buf -> is_byte (byte_at buf i).
Proof.
  intros Hall. unfold byte_at.
  destruct (buf !! Z.to_nat i) as [b|] eqn:E; cbn.
  - exact (proj1 (Forall_lookup _ _) Hall _ _ E).
  - unfold is_byte. lia.
Qed.

(** Four bytes loaded as a sample and stored again are the same four
    bytes. *)
Lemma encode_load_bytes b0 b1 b2 b3 :
  is_byte b0 -> is_byte b1 -> is_byte b2 -> is_byte b3 ->
  encode_sample (to_int (b0 + 2 ^ 8 * b1 + 2 ^ 16 * b2 + 2 ^ 24 * b3))
  = [b0; b1; b2; b3].
Proof.
  unfold is_byte, encode_sample, to_int. intros H0 H1 H2 H3.
  set (u := b0 + 2 ^ 8 * b1 + 2 ^ 16 * b2 + 2 ^ 24 * b3).
  assert (Hu : 0 <= u < 2 ^ 32) by (subst u; lia).
  rewrite (Z.mod_small u) by exact Hu.
  assert (E0 : forall k, (u + k * 2 ^ 32) mod 256 = b0).
  { intros k. subst u. Z.div_mod_to_equations. lia. }
  assert (E1 : forall k, ((u + k * 2 ^ 32) / 2 ^ 8) mod 256 = b1).
  { intros k. subst u. Z.div_mod_to_equations. lia. }
  assert (E2 : forall k, ((u + k * 2 ^ 32) / 2 ^ 16) mod 256 = b2).
  { intros k. subst u. Z.div_mod_to_equations. lia. }
  assert (E3 : forall k, ((u + k * 2 ^ 32) / 2 ^ 24) mod 256 = b3).
  { intros k. subst u. Z.div_mod_to_equations. lia. }
  destruct (u <? 2 ^ 31).
  - specialize (E0 0). specialize (E1 0). specialize (E2 0). specialize (E3 0).
    rewrite Z.mul_0_l, Z.add_0_r in E0, E1, E2, E3. congruence.
  - specialize (E0 (-1)). specialize (E1 (-1)).
    specialize (E2 (-1)). specialize (E3 (-1)).
    replace (u + -1 * 2 ^ 32) with (u - 2 ^ 32) in E0, E1, E2, E3 by lia.
    congruence.
Qed.

Lemma drop_byte_at buf off :
  0 <= off < Z.of_nat (length buf) ->
  drop (Z.to_nat off) buf = byte_at buf off :: drop (Z.to_nat (off + 1)) buf.
Proof.
  intros Hoff. unfold byte_at.
  destruct (lookup_lt_is_Some_2 buf (Z.to_nat off) ltac:(lia)) as [b Hb].
  rewrite Hb. cbn [default]. replace (Z.to_nat (off + 1)) with (S (Z.to_nat off)) by lia.
  now apply drop_S.
Qed.

Section Unity.

Variable fixed_mul : Z -> Z -> Z.
Variable decode_sample_mix : list Z -> Z -> list Z.
Variable decode_check_start_point : decode_audio -> bool.

Lemma gain_frames_unity n lg rg buf off :
  (forall s, fixed_mul lg s = s) -> (forall s, fixed_mul rg s = s) ->
  Forall is_byte buf ->
  0 <= off -> off + 8 * Z.of_nat n <= Z.of_nat (length buf) ->
  gain_frames fixed_mul n lg rg buf off
  = take (8 * n) (drop (Z.to_nat off) buf).
Proof.
  intros Hl Hr Hall. revert off.
  induction n as [|n IH]; intros off Hoff Hfit.
  - reflexivity.
  - cbn [gain_frames]. unfold sizeof_sample_t.
    rewrite IH by lia.
    replace (8 * S n)%nat with (8 + 8 * n)%nat by lia.
    rewrite <- (take_take_drop (drop (Z.to_nat off) buf) 8 (8 * n)).
    rewrite drop_drop.
    replace (Z.to_nat off + 8)%nat with (Z.to_nat (off + 2 * 4)) by lia.
    f_equal.
    unfold gain_frame, sizeof_sample_t. rewrite Hl, Hr.
    unfold load_sample.
    rewrite !encode_load_bytes by (apply byte_at_is_byte; exact Hall).
    rewrite (drop_byte_at buf off) by lia.
    rewrite (drop_byte_at buf (off + 1)) by lia.
    rewrite (drop_byte_at buf (off + 1 + 1)) by lia.
    rewrite (drop_byte_at buf (off + 1 + 1 + 1)) by lia.
    rewrite (drop_byte_at buf (off + 1 + 1 + 1 + 1)) by lia.
    rewrite (drop_byte_at buf (off + 1 + 1 + 1 + 1 + 1)) by lia.
    rewrite (drop_byte_at buf (off + 1 + 1 + 1 + 1 + 1 + 1)) by lia.
    rewrite (drop_byte_at buf (off + 1 + 1 + 1 + 1 + 1 + 1 + 1)) by lia.
    cbn [take app].
    repeat (f_equal; try (f_equal; lia)).
Qed.

(** At unity gain the callback is a plain copy: the audio block of the
    output is, byte for byte, the buffered bytes from the read index
    up to the wrap followed by those from index 0. *)
Theorem unity_gain_copies_bytes rate buf a out F :
  callback_pre rate buf a out F -> frame_aligned a ->
  flag_set (state a) DECODE_STATE_RUNNING = true ->
  Forall is_byte buf ->
  (forall s, fixed_mul (lgain a) s = s) ->
  (forall s, fixed_mul (rgain a) s = s) ->
  let len := SAMPLES_TO_BYTES F in
  let len' := len_after_silence rate a F in
  let U := fifo_bytes_used (fifo_of a) in
  let used := Z.min U len' in
  let skip := skip_amount U len' (skip_ahead_bytes a) in
  let r2 := (rptr (fifo_of a) + skip) mod size (fifo_of a) in
  let n1 := Z.min (size (fifo_of a) - r2) used in
  exists r,
    callback fixed_mul decode_sample_mix decode_check_start_point
      rate buf a out F = Done r
    /\ res_output r
       = decode_sample_mix
           (replicate (Z.to_nat (len - len')) 0
            ++ (take (Z.to_nat n1) (drop (Z.to_nat r2) buf)
                ++ take (Z.to_nat (used - n1)) buf)
            ++ replicate (Z.to_nat (len' - used)) 0)
           len.
Proof.
  intros Hpre Hal Hrun Hall Hl Hr len len' U used skip r2 n1.
  rewrite callback_running_spec by assumption. cbv zeta.
  fold len'. fold U. fold used. fold skip. fold r2.
  destruct Hpre as ((Hrp & Hwp & Hb) & Hsa & HF & HFmax & _).
  destruct Hal as (Asz & Ar & Aw & Asa).
  assert (Elen : len = 8 * F)
    by (apply SAMPLES_TO_BYTES_small; [lia|exact HFmax]).
  rewrite <- Elen.
  pose proof (len_after_silence_range rate a F ltac:(lia) HFmax)
    as (Hlen' & Alen').
  fold len' in Hlen', Alen'.
  assert (HU : 0 <= U < size (fifo_of a))
    by (apply fifo_bytes_used_range; lia).
  assert (AU : aligned U) by now apply fifo_bytes_used_aligned.
  assert (Hused : 0 <= used <= size (fifo_of a)) by (subst used; lia).
  assert (Aused : aligned used).
  { subst used. destruct (Z.min_spec U len') as [[_ ->]|[_ ->]]; assumption. }
  assert (Hr2 : 0 <= r2 < size (fifo_of a))
    by (apply Z.mod_pos_bound; lia).
  assert (Ar2 : aligned r2).
  { subst r2. apply aligned_mod; [|exact Asz].
    apply aligned_add; [exact Ar|]. now apply skip_amount_aligned. }
  eexists. split; [reflexivity|]. cbn [res_output]. do 2 f_equal. f_equal.
  rewrite <- (two_segments_ring fixed_mul (lgain a) (rgain a) buf
                (size (fifo_of a)) r2 used) by assumption.
  cbv zeta.
  replace (if size (fifo_of a) - r2 <? used then size (fifo_of a) - r2 else used)
    with n1 by (subst n1; destruct (Z.ltb_spec (size (fifo_of a) - r2) used); lia).
  assert (Hn1 : 0 <= n1 <= used) by (subst n1; lia).
  assert (An1 : aligned n1).
  { subst n1. destruct (Z.min_spec (size (fifo_of a) - r2) used)
      as [[_ ->]|[_ ->]]; [now apply aligned_sub|exact Aused]. }
  assert (An2 : aligned (used - n1)) by now apply aligned_sub.
  pose proof (BYTES_TO_SAMPLES_aligned _ An1) as E1.
  pose proof (BYTES_TO_SAMPLES_aligned _ An2) as E2.
  pose proof (BYTES_TO_SAMPLES_nonneg n1 ltac:(lia)).
  pose proof (BYTES_TO_SAMPLES_nonneg (used - n1) ltac:(lia)).
  rewrite !gain_frames_unity by (assumption || (subst n1; lia)).
  change (Z.to_nat 0) with 0%nat. rewrite drop_0.
  f_equal; f_equal; lia.
Qed.

End Unity.

(** ** The stream life cycle *)

Lemma count_warnings_app t1 t2 :
  count_warnings (t1 ++ t2) = (count_warnings t1 + count_warnings t2)%nat.
Proof. unfold count_warnings. now rewrite List.filter_app, length_app. Qed.

Lemma stream_calls_app t1 t2 :
  stream_calls (t1 ++ t2) = stream_calls t1 ++ stream_calls t2.
Proof. apply List.filter_app. Qed.

(** [decode_portaudio_openstream] has no early exit: it closes the old
    stream if there is one, then opens, registers the notifier and
    starts, in this order and whichever of the calls fail; each failing
    call costs one warning and nothing else, and the lock is free at
    the end. *)
Theorem openstream_makes_every_call pa w :
  let t := snd (decode_portaudio_openstream pa w) in
  stream_calls t
  = (if stream w then [EvCloseStream] else [])
    ++ [EvOpenStream (set_sample_rate (decode_audio_of w));
        EvSetStreamFinishedCallback; EvStartStream]
  /\ count_warnings t
     = ((if stream w then failed (close_ok pa) else 0)
        + failed (open_ok pa) + failed (set_finished_ok pa)
        + failed (start_ok pa))%nat
  /\ lock_depth t = 0.
Proof.
  cbv zeta. unfold decode_portaudio_openstream. cbn [snd].
  destruct (stream w), pa as [[] [] ? [] []]; repeat split; reflexivity.
Qed.

(** Failures of the PortAudio calls leave no mark on the state: two
    runs that only differ in which calls fail end in the same state,
    the recorded stream rate included. *)
Theorem openstream_state_ignores_errors pa pa' w :
  stream_after_open pa = stream_after_open pa' ->
  fst (decode_portaudio_openstream pa w)
  = fst (decode_portaudio_openstream pa' w)
  /\ fst (decode_portaudio_start pa w) = fst (decode_portaudio_start pa' w)
  /\ fst (decode_portaudio_stop pa w) = fst (decode_portaudio_stop pa' w)
  /\ fst (finished_handler pa w) = fst (finished_handler pa' w).
Proof.
  intros E. unfold decode_portaudio_start, decode_portaudio_stop,
    finished_handler, decode_portaudio_openstream.
  cbn [fst]. rewrite E. repeat split; reflexivity.
Qed.

(** Right after the stream was opened, by whichever entry point, the
    stream-finished notifier has nothing to do: it queues nothing and
    logs nothing. *)
Theorem finished_after_open_does_nothing pa w :
  let idle w' := finished w' = (w', []) in
  idle (fst (decode_portaudio_openstream pa w))
  /\ idle (fst (decode_portaudio_start pa w))
  /\ idle (fst (decode_portaudio_stop pa w))
  /\ idle (fst (finished_handler pa w)).
Proof.
  cbv zeta. unfold decode_portaudio_start, decode_portaudio_stop,
    finished_handler, decode_portaudio_openstream, finished.
  cbn [fst decode_audio_of with_decode_audio with_stream
       with_stream_sample_rate with_decode_mqueue set_sample_rate
       with_set_sample_rate Z.eqb negb].
  repeat split; reflexivity.
Qed.


Section RateZero.

Variable fixed_mul : Z -> Z -> Z.
Variable decode_sample_mix : list Z -> Z -> list Z.
Variable decode_check_start_point : decode_audio -> bool.

(** Starting playback when no rate is pending, as after a stop, opens
    the stream at rate 0; a callback on a stream of rate 0 that has
    silence to insert divides by zero at line 71. *)
Theorem silence_at_rate_zero_divides pa pa' w buf out F :
  let w2 := fst (decode_portaudio_start pa'
                   (fst (decode_portaudio_stop pa w))) in
  flag_set (state (decode_audio_of w)) DECODE_STATE_RUNNING = true ->
  to_int (add_silence_ms (decode_audio_of w)) <> 0 ->
  stream_sample_rate w2 = 0
  /\ In (EvOpenStream 0)
       (snd (decode_portaudio_start pa' (fst (decode_portaudio_stop pa w))))
  /\ callback fixed_mul decode_sample_mix decode_check_start_point
       (stream_sample_rate w2) buf (decode_audio_of w2) out F
     = DivisionByZero.
Proof.
  cbv zeta. intros Hrun Hms.
  unfold decode_portaudio_start, decode_portaudio_stop,
    decode_portaudio_openstream.
  cbn [fst snd decode_audio_of with_decode_audio with_stream
       with_stream_sample_rate stream_sample_rate set_sample_rate
       with_set_sample_rate].
  split; [reflexivity|]. split.
  { apply in_or_app. right. cbn. right. right. right. now left. }
  unfold callback. cbn [state add_silence_ms with_set_sample_rate].
  rewrite Hrun. cbn [negb].
  destruct (Z.eqb_spec (to_int (add_silence_ms (decode_audio_of w))) 0)
    as [?|_]; [contradiction|].
  reflexivity.
Qed.

End RateZero.

(** ** Initialisation *)

Lemma first_supported_spec supported : forall i d,
  first_supported i supported = Some d <->
  exists k : nat,
    d = i + Z.of_nat k /\ supported !! k = Some true
    /\ forall j, (j < k)%nat -> supported !! j = Some false.
Proof.
  induction supported as [|ok rest IH]; intros i d; cbn [first_supported].
  - split; [discriminate|]. intros (k & _ & Hk & _). discriminate.
  - destruct ok.
    + split.
      * intros [= <-]. exists 0%nat. split; [lia|]. split; [reflexivity|].
        intros j Hj. lia.
      * intros (k & -> & Hk & Hlt). destruct k as [|k].
        -- f_equal. lia.
        -- specialize (Hlt 0%nat ltac:(lia)). discriminate.
    + rewrite IH. split.
      * intros (k & -> & Hk & Hlt). exists (S k). split; [lia|].
        split; [exact Hk|]. intros [|j] Hj; [reflexivity|].
        apply Hlt. lia.
      * intros (k & -> & Hk & Hlt). destruct k as [|k]; [discriminate|].
        exists k. split; [lia|]. split; [exact Hk|].
        intros j Hj. apply (Hlt (S j)). lia.
Qed.

Lemma first_supported_none supported : forall i,
  first_supported i supported = None <->
  forall k, supported !! k <> Some true.
Proof.
  induction supported as [|ok rest IH]; intros i; cbn [first_supported].
  - split; [|reflexivity]. intros _ k. discriminate.
  - destruct ok.
    + split; [discriminate|]. intros H. now specialize (H 0%nat).
    + rewrite IH. split.
      * intros H [|k]; [discriminate|]. apply H.
      * intros H k. apply (H (S k)).
Qed.

(** [decode_portaudio_init] reports the backend as available exactly
    when PortAudio initialises, some device supports the format and
    both allocations succeed; it then has selected the first such
    device, set the maximum rate and an empty fifo, and opened the
    stream at 44100 Hz with nothing pending.  Otherwise it returns 0
    and opens no stream. *)
Theorem init_selects_first_supported_device
    pa_init_ok supported malloc_buf_ok malloc_audio_ok fresh fifo_size pa :
  match decode_portaudio_init pa_init_ok supported malloc_buf_ok
          malloc_audio_ok fresh fifo_size pa with
  | (ret, Some (w, t)) =>
      ret = 1
      /\ pa_init_ok = true /\ malloc_buf_ok = true /\ malloc_audio_ok = true
      /\ (exists k : nat,
            output_device w = Z.of_nat k /\ supported !! k = Some true
            /\ forall j, (j < k)%nat -> supported !! j = Some false)
      /\ fifo_of (decode_audio_of w) = fifo_init fifo_size
      /\ max_rate (decode_audio_of w) = 48000
      /\ stream_sample_rate w = 44100
      /\ decode_mqueue w = None
      /\ stream_calls t
         = [EvOpenStream 44100; EvSetStreamFinishedCallback; EvStartStream]
  | (ret, None) =>
      ret = 0
      /\ (pa_init_ok = false \/ (forall k, supported !! k <> Some true)
          \/ malloc_buf_ok = false \/ malloc_audio_ok = false)
  end.
Proof.
  unfold decode_portaudio_init.
  destruct pa_init_ok; cbn [negb]; [|split; [reflexivity|now left]].
  destruct (first_supported 0 supported) as [dev|] eqn:Edev.
  - destruct malloc_buf_ok; cbn [negb]; [|split; [reflexivity|auto]].
    destruct malloc_audio_ok; cbn [negb]; [|split; [reflexivity|auto]].
    apply first_supported_spec in Edev as (k & -> & Hk & Hlt).
    unfold decode_portaudio_openstream.
    cbn [stream decode_audio_of with_decode_audio with_stream
         with_stream_sample_rate output_device decode_mqueue
         stream_sample_rate set_sample_rate with_set_sample_rate
         with_fifo with_max_rate fifo_of max_rate].
    split; [reflexivity|]. split; [reflexivity|]. split; [reflexivity|].
    split; [reflexivity|]. split.
    { exists k. split; [lia|]. split; assumption. }
    split; [reflexivity|]. split; [reflexivity|]. split; [reflexivity|].
    split; [reflexivity|].
    destruct pa as [? [] ? [] []]; reflexivity.
  - split; [reflexivity|]. right. left.
    now apply (first_supported_none supported 0).
Qed.

Section AfterInit.

Variable fixed_mul : Z -> Z -> Z.
Variable decode_sample_mix : list Z -> Z -> list Z.
Variable decode_check_start_point : decode_audio -> bool.

(** The first callback after a successful initialisation, whatever the
    freshly allocated [struct decode_audio] happens to hold in the
    fields that [decode_portaudio_init] does not set, renders a buffer
    of zeroes and leaves the empty fifo and every counter alone. *)
Theorem callback_after_init_is_silent
    pa_init_ok supported malloc_buf_ok malloc_audio_ok fresh fifo_size pa
    ret w t buf out F :
  decode_portaudio_init pa_init_ok supported malloc_buf_ok malloc_audio_ok
    fresh fifo_size pa = (ret, Some (w, t)) ->
  0 < fifo_size -> Z.of_nat (length buf) = fifo_size ->
  0 <= skip_ahead_bytes fresh ->
  0 < F -> 2 * F * sizeof_sample_t < 2 ^ SIZE_BITS ->
  Z.of_nat (length out) = 2 * F * sizeof_sample_t ->
  exists r,
    callback fixed_mul decode_sample_mix decode_check_start_point
      (stream_sample_rate w) buf (decode_audio_of w) out F = Done r
    /\ res_output r
       = decode_sample_mix (replicate (Z.to_nat (8 * F)) 0) (8 * F)
    /\ fifo_of (res_audio r) = fifo_init fifo_size
    /\ skip_ahead_bytes (res_audio r) = skip_ahead_bytes fresh
    /\ elapsed_samples (res_audio r) = elapsed_samples fresh
    /\ set_sample_rate (res_audio r) = 0.
Proof.
  intros Hinit Hsz Hbuf Hsa HF HFmax Hout.
  set (a := with_set_sample_rate 0
              (with_fifo (fifo_init fifo_size)
                 (with_set_sample_rate 44100 (with_max_rate 48000 fresh)))).
  assert (Hw : stream_sample_rate w = 44100 /\ decode_audio_of w = a).
  { unfold decode_portaudio_init in Hinit.
    destruct pa_init_ok; [|discriminate]. cbn [negb] in Hinit.
    destruct (first_supported 0 supported); [|discriminate].
    destruct malloc_buf_ok; [|discriminate].
    destruct malloc_audio_ok; [|discriminate].
    cbn [negb] in Hinit. injection Hinit as _ <- _.
    split; reflexivity. }
  destruct Hw as (-> & ->).
  assert (Hpre : callback_pre 44100 buf a out F).
  { unfold callback_pre, fifo_ok. subst a.
    cbn [fifo_of with_set_sample_rate with_fifo with_max_rate fifo_init
         rptr wptr size skip_ahead_bytes].
    repeat split; lia. }
  assert (HU : fifo_bytes_used (fifo_of a) = 0).
  { subst a. unfold fifo_bytes_used.
    cbn [fifo_of with_set_sample_rate with_fifo fifo_init rptr wptr size].
    now rewrite Z.sub_diag, Z.mod_0_l by lia. }
  assert (Elen : SAMPLES_TO_BYTES F = 8 * F)
    by (apply SAMPLES_TO_BYTES_small; [lia|exact HFmax]).
  assert (Ha : fifo_of a = fifo_init fifo_size
               /\ skip_ahead_bytes a = skip_ahead_bytes fresh
               /\ elapsed_samples a = elapsed_samples fresh
               /\ set_sample_rate a = 0)
    by (subst a; repeat split; reflexivity).
  destruct Ha as (Hf & Hs & He & Hp).
  enough (exists r,
    callback fixed_mul decode_sample_mix decode_check_start_point
      44100 buf a out F = Done r
    /\ res_output r
       = decode_sample_mix (replicate (Z.to_nat (8 * F)) 0) (8 * F)
    /\ fifo_of (res_audio r) = fifo_of a
    /\ skip_ahead_bytes (res_audio r) = skip_ahead_bytes a
    /\ elapsed_samples (res_audio r) = elapsed_samples a
    /\ set_sample_rate (res_audio r) = set_sample_rate a) as (r & Hr & Ho & E).
  { exists r. rewrite Hf, Hs, He, Hp in E. tauto. }
  clear Hf Hs He Hp. clearbody a.
  unfold sizeof_sample_t in Hout.
  destruct (flag_set (state a) DECODE_STATE_RUNNING) eqn:Hst.
  - destruct (callback_gen fixed_mul decode_sample_mix
                decode_check_start_point 44100 buf a out F Hpre Hst)
      as (e & ->).
    pose proof (len_after_silence_range 44100 a F ltac:(lia) HFmax)
      as (Hlen' & _).
    rewrite HU.
    replace (Z.min 0 (len_after_silence 44100 a F)) with 0 by lia.
    eexists. split; [reflexivity|]. cbn [res_output res_audio Z.eqb].
    split.
    + f_equal. unfold copied_segments.
      set (r2 := (rptr (fifo_of a) + _) mod size (fifo_of a)).
      destruct Hpre as ((Hr & _) & _).
      assert (Hr2 : 0 <= r2 < size (fifo_of a))
        by (apply Z.mod_pos_bound; lia).
      destruct (Z.ltb_spec (size (fifo_of a) - r2) 0); [lia|].
      rewrite !Z.sub_0_r, !Z.add_0_r.
      change (Z.to_nat (BYTES_TO_SAMPLES 0)) with 0%nat.
      cbn [gain_frames]. rewrite !write_bytes_nil.
      set (len' := len_after_silence 44100 a F) in *.
      pose proof (play_output out (8 * F - len') 0 len' []
                    ltac:(lia) ltac:(lia) ltac:(lia) eq_refl) as P.
      rewrite write_bytes_nil, Z.add_0_r, Z.sub_0_r in P. rewrite P.
      cbn [app]. rewrite <- replicate_add. f_equal. lia.
    + destruct (_ =? 0); repeat split; reflexivity.
  - unfold callback. rewrite Hst. cbn [negb]. rewrite Elen.
    eexists. split; [reflexivity|]. cbn [mixin_effects res_output res_audio].
    rewrite Elen, memset0_all by lia. repeat split; reflexivity.
Qed.

End AfterInit.

(** ** Callbacks in a row *)

Section Drain.

Variable fixed_mul : Z -> Z -> Z.
Variable decode_sample_mix : list Z -> Z -> list Z.
Variable decode_check_start_point : decode_audio -> bool.

(** One callback while playing, with neither silence nor a skip
    pending: everything the next callback needs holds again, the fill
    level went down by the request or to zero, and the underrun flag
    tells which. *)
Lemma callback_drain_step rate buf a out F :
  callback_pre rate buf a out F ->
  flag_set (state a) DECODE_STATE_RUNNING = true ->
  add_silence_ms a = 0 -> skip_ahead_bytes a = 0 ->
  exists r,
    callback fixed_mul decode_sample_mix decode_check_start_point
      rate buf a out F = Done r
    /\ callback_pre rate buf (res_audio r) out F
    /\ flag_set (state (res_audio r)) DECODE_STATE_RUNNING = true
    /\ add_silence_ms (res_audio r) = 0
    /\ skip_ahead_bytes (res_audio r) = 0
    /\ fifo_bytes_used (fifo_of (res_audio r))
       = Z.max 0 (fifo_bytes_used (fifo_of a) - 8 * F)
    /\ flag_set (state (res_audio r)) DECODE_STATE_UNDERRUN
       = (fifo_bytes_used (fifo_of a) <? 8 * F).
Proof.
  intros Hpre Hrun Hms Hsa.
  destruct (callback_gen fixed_mul decode_sample_mix decode_check_start_point
              rate buf a out F Hpre Hrun) as (e & ->).
  destruct Hpre as ((Hr & Hw & Hb) & _ & HF & HFmax & Hout & Hrate).
  rewrite len_after_silence_none by exact Hms.
  rewrite SAMPLES_TO_BYTES_small by (lia || assumption).
  assert (HU : 0 <= fifo_bytes_used (fifo_of a) < size (fifo_of a))
    by (apply fifo_bytes_used_range; lia).
  set (U := fifo_bytes_used (fifo_of a)) in *.
  assert (Eskip : skip_amount U (8 * F) (skip_ahead_bytes a) = 0).
  { rewrite Hsa. unfold skip_amount. now rewrite andb_false_r. }
  rewrite Eskip.
  eexists. split; [reflexivity|]. cbn [res_audio].
  destruct (Z.eqb_spec (8 * F) 0) as [?|_]; [lia|].
  destruct (Z.eqb_spec (Z.min U (8 * F)) 0) as [E0|Hne].
  - assert (EU : U = 0) by lia.
    unfold callback_pre, fifo_ok. cbn [with_state fifo_of state
      add_silence_ms skip_ahead_bytes].
    rewrite running_after_set, underrun_after_set. fold U. rewrite EU.
    destruct (Z.ltb_spec 0 (8 * F)); [|lia].
    repeat split; first [assumption|lia].
  - unfold callback_pre, fifo_ok.
    rewrite note_track_rate_fifo, note_track_rate_skip,
      note_track_rate_state, note_track_rate_silence.
    unfold with_elapsed_samples, audio_consumed.
    cbn [fifo_of state add_silence_ms skip_ahead_bytes].
    rewrite fifo_bytes_used_incby by (fold U; lia). fold U.
    unfold fifo_rptr_incby. cbn [rptr wptr size].
    pose proof (Z.mod_pos_bound (rptr (fifo_of a) + (0 + Z.min U (8 * F)))
                  (size (fifo_of a)) ltac:(lia)).
    destruct (Z.ltb_spec U (8 * F)).
    + rewrite running_after_set, underrun_after_set.
      repeat split; first [assumption|lia].
    + rewrite running_after_clear, underrun_after_clear.
      repeat split; first [assumption|lia].
Qed.

(** With the decoder idle, [n] callbacks in a row all return and
    together take [n] requests out of the fifo, or all of it; the
    underrun flag is raised by the first callback that finds less than
    a full request and stays up. *)
Theorem callbacks_drain_fifo n rate buf a out F :
  callback_pre rate buf a out F ->
  flag_set (state a) DECODE_STATE_RUNNING = true ->
  add_silence_ms a = 0 -> skip_ahead_bytes a = 0 ->
  exists a',
    after_callbacks fixed_mul decode_sample_mix decode_check_start_point
      (S n) rate buf a out F = Done a'
    /\ fifo_bytes_used (fifo_of a')
       = Z.max 0 (fifo_bytes_used (fifo_of a) - Z.of_nat (S n) * (8 * F))
    /\ flag_set (state a') DECODE_STATE_UNDERRUN
       = (fifo_bytes_used (fifo_of a) <? Z.of_nat (S n) * (8 * F))
    /\ wptr (fifo_of a') = wptr (fifo_of a).
Proof.
  revert a. induction n as [|n IH]; intros a Hpre Hrun Hms Hsa;
    destruct (callback_drain_step rate buf a out F Hpre Hrun Hms Hsa)
      as (r & Hr & Hpre' & Hrun' & Hms' & Hsa' & HU' & Hflag');
    pose proof Hpre as (_ & _ & HF & _);
    assert (Hw : wptr (fifo_of (res_audio r)) = wptr (fifo_of a)).
  1, 3: (destruct (callback_gen fixed_mul decode_sample_mix
                     decode_check_start_point rate buf a out F Hpre Hrun)
           as (e & Hg); rewrite Hg in Hr; injection Hr as <-;
         cbn [res_audio];
         destruct (_ =? 0); [reflexivity|];
         destruct (_ =? 0); [reflexivity|];
         now rewrite note_track_rate_fifo).
  - exists (res_audio r). cbn [after_callbacks]. rewrite Hr. cbn [obind].
    split; [reflexivity|]. rewrite HU', Hflag'.
    change (Z.of_nat 1) with 1. rewrite Z.mul_1_l.
    split; [reflexivity|]. split; [reflexivity|exact Hw].
  - destruct (IH (res_audio r) Hpre' Hrun' Hms' Hsa')
      as (a' & Ha' & HUn & Hfn & Hwn).
    exists a'. split.
    + change (after_callbacks fixed_mul decode_sample_mix
                decode_check_start_point (S (S n)) rate buf a out F)
        with (obind (callback fixed_mul decode_sample_mix
                       decode_check_start_point rate buf a out F)
                (fun r => after_callbacks fixed_mul decode_sample_mix
                            decode_check_start_point (S n) rate buf
                            (res_audio r) out F)).
      rewrite Hr. exact Ha'.
    + rewrite HUn, Hfn, Hwn, HU', Hw.
      set (U := fifo_bytes_used (fifo_of a)).
      split; [lia|]. split; [|reflexivity].
      destruct (Z.ltb_spec (Z.max 0 (U - 8 * F)) (Z.of_nat (S n) * (8 * F))),
               (Z.ltb_spec U (Z.of_nat (S (S n)) * (8 * F)));
        try reflexivity; nia.
Qed.

End Drain.

(** * The further properties on sample inputs *)

Lemma sample_pre_underrun :
  callback_pre 44100 Sample.fifo_buf Sample.silent_underrun Sample.out4 4.
Proof. by_computation. Defined.

Lemma sample_pre_partial :
  callback_pre 1000 Sample.fifo_buf Sample.silent (replicate 40 255) 5.
Proof. by_computation. Defined.

Lemma sample_bytes : Forall is_byte Sample.fifo_buf.
Proof. repeat (constructor; [unfold is_byte; lia|]). constructor. Defined.

Lemma sample_agree :
  buffered_agree (fifo_of Sample.audio) Sample.fifo_buf Sample.fifo_buf_stale.
Proof.
  intros j Hj. change (fifo_bytes_used (fifo_of Sample.audio)) with 24 in Hj.
  replace j with (Z.of_nat (Z.to_nat j)) by lia.
  assert (Hn : (Z.to_nat j < 24)%nat) by lia.
  revert Hn. generalize (Z.to_nat j). intros n Hn.
  do 24 (destruct n as [|n]; [reflexivity|]). lia.
Defined.

(** Twenty-four bytes from read index 16 of a 32-byte fifo: two
    rounds, the second from index 0; more fuel changes nothing. *)
Lemma copy_loop_two_rounds_witness :
  exists a' out',
    copy_loop Sample.fixed_mul 2 Sample.fifo_buf Sample.audio Sample.out4 0 24
    = Done (a', out')
    /\ copy_loop Sample.fixed_mul 5 Sample.fifo_buf Sample.audio Sample.out4 0 24
       = Done (a', out')
    /\ rptr (fifo_of a') = 8
    /\ length out' = 32%nat.
Proof.
  exact (copy_loop_two_rounds Sample.fixed_mul 5 Sample.fifo_buf Sample.audio
           Sample.out4 0 24
           ltac:(vm_compute; split; [discriminate|reflexivity])
           ltac:(vm_compute; split; discriminate)
           ltac:(lia) ltac:(lia)).
Defined.

(** The frame at bytes 8 to 15 is not buffered: what it holds does not
    show in the result. *)
Lemma callback_reads_only_buffered_witness :
  Sample.fifo_buf <> Sample.fifo_buf_stale
  /\ callback Sample.fixed_mul Sample.no_mix Sample.wrapped
       44100 Sample.fifo_buf Sample.audio Sample.out4 4
     = callback Sample.fixed_mul Sample.no_mix Sample.wrapped
         44100 Sample.fifo_buf_stale Sample.audio Sample.out4 4.
Proof.
  split; [discriminate|].
  exact (callback_reads_only_buffered
           Sample.fixed_mul Sample.no_mix Sample.wrapped
           44100 Sample.fifo_buf Sample.fifo_buf_stale Sample.audio
           Sample.out4 4
           ltac:(vm_compute; split; [discriminate|reflexivity])
           ltac:(vm_compute; discriminate)
           sample_agree).
Defined.

(** Five frames requested at 1000 Hz with one millisecond of silence
    pending and three frames buffered: the first and the last frame of
    the output are zero. *)
Lemma silence_regions_are_zero_witness :
  exists r pre,
    callback Sample.fixed_mul Sample.no_mix Sample.wrapped
      1000 Sample.fifo_buf Sample.silent (replicate 40 255) 5 = Done r
    /\ res_output r = pre
    /\ byte_at pre 0 = 0 /\ byte_at pre 7 = 0
    /\ byte_at pre 32 = 0 /\ byte_at pre 39 = 0.
Proof.
  destruct (silence_regions_are_zero
              Sample.fixed_mul Sample.no_mix Sample.wrapped
              1000 Sample.fifo_buf Sample.silent (replicate 40 255) 5
              sample_pre_partial eq_refl)
    as (r & pre & Hr & Ho & _ & Hz).
  exists r, pre. split; [exact Hr|]. split; [exact Ho|].
  repeat split; apply Hz; vm_compute;
    first [left; split; [discriminate|reflexivity]
          |right; split; [discriminate|reflexivity]].
Defined.

Lemma callback_only_consumes_witness :
  exists r,
    callback Sample.fixed_mul Sample.no_mix Sample.wrapped
      44100 Sample.fifo_buf Sample.audio Sample.out4 4 = Done r
    /\ fifo_ok (fifo_of (res_audio r)) Sample.fifo_buf
    /\ wptr (fifo_of (res_audio r)) = 8
    /\ fifo_bytes_used (fifo_of (res_audio r)) = 0.
Proof.
  destruct (callback_only_consumes
              Sample.fixed_mul Sample.no_mix Sample.wrapped
              44100 Sample.fifo_buf Sample.audio Sample.out4 4 sample_pre4)
    as (r & Hr & Hok & Hw & _).
  exists r. split; [exact Hr|]. split; [exact Hok|]. split; [exact Hw|].
  vm_compute in Hr. injection Hr as <-. reflexivity.
Defined.

Lemma callback_touches_only_underrun_witness :
  exists r,
    callback Sample.fixed_mul Sample.no_mix Sample.wrapped
      44100 Sample.fifo_buf Sample.audio Sample.out4 4 = Done r
    /\ Z.testbit (state (res_audio r)) 0 = true
    /\ Z.testbit (state (res_audio r)) 2 = false
    /\ state (res_audio r) = 3.
Proof.
  destruct (callback_touches_only_underrun
              Sample.fixed_mul Sample.no_mix Sample.wrapped
              44100 Sample.fifo_buf Sample.audio Sample.out4 4 sample_pre4)
    as (r & Hr & Hbits).
  exists r. split; [exact Hr|].
  split; [exact (Hbits 0 ltac:(lia) ltac:(lia))|].
  split; [exact (Hbits 2 ltac:(lia) ltac:(lia))|].
  vm_compute in Hr. injection Hr as <-. reflexivity.
Defined.

Lemma callback_always_continues_witness :
  exists r,
    callback Sample.fixed_mul Sample.no_mix Sample.wrapped
      44100 Sample.fifo_buf Sample.audio Sample.out2 2 = Done r
    /\ res_return r = paContinue
    /\ length (res_output r) = 16%nat.
Proof.
  destruct (callback_always_continues
              Sample.fixed_mul Sample.no_mix Sample.wrapped
              44100 Sample.fifo_buf Sample.audio Sample.out2 2 sample_pre2)
    as (r & pre & Hr & Hret & Ho & Hlen & _).
  exists r. split; [exact Hr|]. split; [exact Hret|].
  rewrite Ho. exact Hlen.
Defined.

(** One millisecond of silence fills a four-frame request at 44100 Hz;
    three such callbacks later the state, underrun flag included, is
    the one before the first. *)
Lemma full_silence_changes_nothing_witness :
  len_after_silence 44100 Sample.silent_underrun 4 = 0
  /\ callback Sample.fixed_mul Sample.no_mix Sample.wrapped
       44100 Sample.fifo_buf Sample.silent_underrun Sample.out4 4
     = Done (mk_result Sample.silent_underrun (replicate 32 0)
               [EvLock; EvUnlock; EvMix 32] paContinue)
  /\ after_callbacks Sample.fixed_mul Sample.no_mix Sample.wrapped
       3 44100 Sample.fifo_buf Sample.silent_underrun Sample.out4 4
     = Done Sample.silent_underrun.
Proof.
  split; [reflexivity|].
  exact (full_silence_changes_nothing
           Sample.fixed_mul Sample.no_mix Sample.wrapped
           44100 Sample.fifo_buf Sample.silent_underrun Sample.out4 4 3
           sample_pre_underrun eq_refl eq_refl).
Defined.

(** At unity gain the three buffered frames come out as they are in
    the fifo, the one past the wrap last, followed by a frame of
    zeroes. *)
Lemma unity_gain_copies_bytes_witness :
  exists r,
    callback Sample.unity_mul Sample.no_mix Sample.wrapped
      44100 Sample.fifo_buf Sample.audio Sample.out4 4 = Done r
    /\ res_output r
       = [5;0;0;0; 6;0;0;0;  7;0;0;0; 8;0;0;0;
          1;0;0;0; 2;0;0;0;  0;0;0;0; 0;0;0;0].
Proof.
  exact (unity_gain_copies_bytes
           Sample.unity_mul Sample.no_mix Sample.wrapped
           44100 Sample.fifo_buf Sample.audio Sample.out4 4
           sample_pre4 sample_aligned eq_refl sample_bytes
           (fun s => eq_refl) (fun s => eq_refl)).
Defined.

(** A run in which closing, registering and starting fail ends in the
    state of the run in which every call succeeds. *)
Lemma openstream_state_ignores_errors_witness :
  fst (decode_portaudio_openstream Sample.pa_ok Sample.world0)
  = fst (decode_portaudio_openstream Sample.pa_failing
           Sample.world0)
  /\ snd (decode_portaudio_openstream Sample.pa_ok Sample.world0)
     <> snd (decode_portaudio_openstream Sample.pa_failing
               Sample.world0).
Proof.
  split.
  - exact (proj1 (openstream_state_ignores_errors Sample.pa_ok
                    Sample.pa_failing Sample.world0
                    eq_refl)).
  - vm_compute. discriminate.
Defined.

(** Stop, then start, then a callback with one millisecond of silence
    pending. *)
Lemma silence_at_rate_zero_divides_witness :
  let w := mk_world Sample.silent true 44100 0 None in
  let w2 := fst (decode_portaudio_start Sample.pa_ok
                   (fst (decode_portaudio_stop Sample.pa_ok w))) in
  stream_sample_rate w2 = 0
  /\ callback Sample.fixed_mul Sample.no_mix Sample.wrapped
       (stream_sample_rate w2) Sample.fifo_buf (decode_audio_of w2)
       Sample.out4 4
     = DivisionByZero.
Proof.
  cbv zeta.
  destruct (silence_at_rate_zero_divides
              Sample.fixed_mul Sample.no_mix Sample.wrapped
              Sample.pa_ok Sample.pa_ok
              (mk_world Sample.silent true 44100 0 None)
              Sample.fifo_buf Sample.out4 4
              eq_refl ltac:(vm_compute; discriminate))
    as (Hrate & _ & Hdiv).
  split; [exact Hrate|exact Hdiv].
Defined.

(** Initialisation over three devices of which the first does not
    support the format, then the first callback. *)
Lemma callback_after_init_is_silent_witness :
  exists w t r,
    decode_portaudio_init true Sample.devices true true Sample.silent 32
      Sample.pa_ok = (1, Some (w, t))
    /\ output_device w = 1
    /\ callback Sample.fixed_mul Sample.no_mix Sample.wrapped
         (stream_sample_rate w) Sample.fifo_buf (decode_audio_of w)
         Sample.out4 4 = Done r
    /\ res_output r = replicate 32 0
    /\ fifo_of (res_audio r) = fifo_init 32.
Proof.
  eexists. eexists.
  destruct (callback_after_init_is_silent
              Sample.fixed_mul Sample.no_mix Sample.wrapped
              true Sample.devices true true Sample.silent 32 Sample.pa_ok
              1 _ _ Sample.fifo_buf Sample.out4 4
              eq_refl ltac:(lia) eq_refl
              ltac:(vm_compute; discriminate) ltac:(lia)
              eq_refl eq_refl)
    as (r & Hr & Ho & Hf & _).
  exists r. split; [reflexivity|]. split; [reflexivity|].
  split; [exact Hr|]. split; [exact Ho|exact Hf].
Defined.

(** Three frames buffered, two callbacks of two frames each: the fifo
    is empty and the underrun flag is up. *)
Lemma callbacks_drain_fifo_witness :
  exists a',
    after_callbacks Sample.fixed_mul Sample.no_mix Sample.wrapped
      2 44100 Sample.fifo_buf Sample.audio Sample.out2 2 = Done a'
    /\ fifo_bytes_used (fifo_of a') = 0
    /\ flag_set (state a') DECODE_STATE_UNDERRUN = true.
Proof.
  destruct (callbacks_drain_fifo
              Sample.fixed_mul Sample.no_mix Sample.wrapped
              1 44100 Sample.fifo_buf Sample.audio Sample.out2 2
              sample_pre2 eq_refl eq_refl eq_refl)
    as (a' & Ha & HU & Hflag & _).
  exists a'. split; [exact Ha|]. split; [exact HU|exact Hflag].
Defined.

Lemma callback_preserves_alignment_witness :
  exists r,
    callback Sample.fixed_mul Sample.no_mix Sample.wrapped
      44100 Sample.fifo_buf Sample.skipping Sample.out2 2 = Done r
    /\ frame_aligned (res_audio r)
    /\ fifo_ok (fifo_of (res_audio r)) Sample.fifo_buf
    /\ skip_ahead_bytes (res_audio r) = 8.
Proof.
  destruct (callback_preserves_alignment
              Sample.fixed_mul Sample.no_mix Sample.wrapped
              44100 Sample.fifo_buf Sample.skipping Sample.out2 2
              sample_pre_skipping ltac:(by_computation))
    as (r & Hr & Hal & Hok & _).
  exists r. split; [exact Hr|]. split; [exact Hal|]. split; [exact Hok|].
  vm_compute in Hr. injection Hr as <-. reflexivity.
Defined.

Lemma callback_running_releases_lock_witness :
  exists r,
    callback Sample.fixed_mul Sample.no_mix Sample.wrapped
      44100 Sample.fifo_buf Sample.audio Sample.out2 2 = Done r
    /\ res_trace r = [EvLock; EvUnlock; EvMix 16]
    /\ lock_depth (res_trace r) = 0.
Proof.
  exact (callback_running_releases_lock
           Sample.fixed_mul Sample.no_mix Sample.wrapped
           44100 Sample.fifo_buf Sample.audio Sample.out2 2
           sample_pre2 eq_refl).
Defined.

(** Frame 2 of the copied block is the fifo frame at index
    [(16 + 16) mod 32 = 0]. *)
Lemma callback_gain_around_ring_witness :
  exists r pre,
    callback Sample.fixed_mul Sample.no_mix Sample.wrapped
      44100 Sample.fifo_buf Sample.audio Sample.out4 4 = Done r
    /\ res_output r = pre
    /\ load_sample pre 16 = 2 /\ load_sample pre 20 = 6.
Proof.
  destruct (callback_gain_around_ring
              Sample.fixed_mul Sample.no_mix Sample.wrapped
              44100 Sample.fifo_buf Sample.audio Sample.out4 4
              sample_pre4 sample_aligned eq_refl)
    as (r & pre & Hr & Ho & Hk).
  exists r, pre. split; [exact Hr|]. split; [exact Ho|].
  exact (Hk 2 ltac:(vm_compute; split; [discriminate|reflexivity])).
Defined.
